(** * AvatarCommerce: the data-access layer [app/database.py]

    A shallow embedding of the [Database] class and of the hosted
    backend it talks to.

    - Python values, dictionaries and exceptions come first.
    - The caller-visible effects (the dictionaries the caller passes by
      reference, the log, the requests sent) live in a [world]; every
      method is a computation in the state-and-exception monad [M].
    - The backend is first an interface ([Backend]): any function of an
      external state that answers or raises.  The methods are written
      once against that interface.
    - [Module Mem] is one instance: an in-memory reading of the three
      [CREATE TABLE] statements of [initialize_tables] with a scripted
      fault schedule, used where a property speaks about stored rows.
    - [initialize_tables] has its own two calls, a probe and
      [execute_sql]: the interface [Admin], and [Module Schema], a
      database that knows which tables exist. *)

From Stdlib Require Import Strings.Byte.
From stdpp Require Import base option list strings pretty gmap fin_maps.

Local Open Scope string_scope.

(** ** Python values *)

Inductive pyval :=
  | VNone
  | VStr (s : string)
  | VBool (b : bool).

#[global] Instance pyval_eq_dec : EqDecision pyval.
Proof. solve_decision. Defined.

#[global] Instance pyval_inhabited : Inhabited pyval := populate VNone.

(** [bool(v)]: [None], the empty string and [False] are falsy. *)
Definition truthy (v : pyval) : bool :=
  match v with
  | VNone => false
  | VStr s => negb (bool_decide (s = ""))
  | VBool b => b
  end.

(** [str(v)], as an f-string formats a value. *)
Definition py_str (v : pyval) : string :=
  match v with
  | VNone => "None"
  | VStr s => s
  | VBool true => "True"
  | VBool false => "False"
  end.

(** A [Dict] with string keys: a table row, an update map. *)
Abbreviation row := (gmap string pyval).
Abbreviation bytes := (list byte).

#[global] Instance byte_eq_decision : EqDecision byte := Byte.byte_eq_dec.

(** [d.get(k)]: the value, or [None] when the key is absent. *)
Definition dict_get (d : row) (k : string) : pyval := default VNone (d !! k).

(** [bool(d)] for a dictionary: empty is falsy. *)
Definition dict_truthy (d : row) : bool := negb (bool_decide (d = ∅)).

(** [response.data[0] if response.data else None] *)
Definition first_or_none (data : list row) : option row := head data.

(** ** Exceptions

    Everything below derives from Python's [Exception], which is what
    the [except Exception] clauses of the class catch: an error of the
    backend client, and the two errors the class's own code can raise
    ([d[k]] on a missing key, [.get] on [None]).  Interpreter signals
    outside [Exception] ([KeyboardInterrupt], [SystemExit]) are not
    backend behaviour and are left out. *)

Inductive exn :=
  | BackendError (msg : string)
  | KeyError (key : string)
  | AttributeError (msg : string).

Definition exn_str (e : exn) : string :=
  match e with
  | BackendError msg => msg
  | KeyError key => "'" ++ key ++ "'"
  | AttributeError msg => msg
  end.

Inductive outcome (A : Type) :=
  | Return (a : A)
  | Raise (e : exn).
Arguments Return {A} a.
Arguments Raise {A} e.

(** ** Requests sent to the hosted backend *)

Inductive table := influencers | affiliate_links | chat_interactions.

#[global] Instance table_eq_dec : EqDecision table.
Proof. solve_decision. Defined.

(** [.table(t).insert(r)], [.select('*')] with an optional [.eq(col, v)],
    [.update(r).eq(col, v)] and [.delete().eq(col, v)], each followed by
    [.execute()].  An upload path is built by the layer and is a string;
    a download path is whatever value the influencer row holds. *)
Inductive query :=
  | Insert (t : table) (r : row)
  | Select (t : table) (filter : option (string * string))
  | Update (t : table) (r : row) (col : string) (v : string)
  | Delete (t : table) (col : string) (v : string).

Inductive request :=
  | Table (q : query)
  | Upload (bucket path : string) (content : bytes)
  | Download (bucket : string) (path : pyval).

#[global] Instance query_eq_dec : EqDecision query.
Proof. solve_decision. Defined.

#[global] Instance request_eq_dec : EqDecision request.
Proof. solve_decision. Defined.

Definition is_download (r : request) : bool :=
  match r with Download _ _ => true | _ => false end.

(** ** The backend interface

    [B] is the state of everything outside the process: the hosted
    database, the blob store and the source of randomness behind
    [uuid.uuid4()].  A call answers or raises, and may change [B] in
    both cases. *)

Class Backend (B : Type) := {
  table_execute : query → B → outcome (list row) * B;
  storage_upload : string → string → bytes → B → outcome () * B;
  storage_download : string → pyval → B → outcome bytes * B;
  uuid4 : B → string * B;
}.

(** ** The world and the monad *)

(** A reference to a dictionary object owned by the caller. *)
Abbreviation loc := nat.

Record world (B : Type) := World {
  dicts : gmap loc row;       (* dictionary objects, by reference *)
  log : list string;          (* logger.error lines, oldest first *)
  trace : list request;       (* requests sent, oldest first *)
  ext : B;                    (* the backend *)
}.
Arguments World {B} _ _ _ _.
Arguments dicts {B} _.
Arguments log {B} _.
Arguments trace {B} _.
Arguments ext {B} _.

Definition M (B A : Type) : Type := world B → outcome A * world B.

Definition ret {B A} (a : A) : M B A := λ σ, (Return a, σ).

Definition raise {B A} (e : exn) : M B A := λ σ, (Raise e, σ).

Definition bind {B A C} (m : M B A) (k : A → M B C) : M B C :=
  λ σ, match m σ with
       | (Return a, σ') => k a σ'
       | (Raise e, σ') => (Raise e, σ')
       end.

(** [try: body  except Exception as e: handler e] *)
Definition try_except {B A} (body : M B A) (handler : exn → M B A) : M B A :=
  λ σ, match body σ with
       | (Return a, σ') => (Return a, σ')
       | (Raise e, σ') => handler e σ'
       end.

#[global] Instance M_ret B : MRet (M B) := λ A, ret.
#[global] Instance M_bind B : MBind (M B) := λ A C k m, bind m k.

Section effects.
Context {B : Type} `{!Backend B}.

(** The dictionary a reference points to.  Every reference a Python
    caller holds is allocated; a location outside [dicts] reads as the
    empty dictionary. *)
Definition read_dict (l : loc) : M B row :=
  λ σ, (Return (dicts σ !!! l), σ).

(** [d[k]] *)
Definition dict_getitem (d : row) (k : string) : M B pyval :=
  match d !! k with
  | Some v => ret v
  | None => raise (KeyError k)
  end.

(** [l[k] = v]: the object itself is changed. *)
Definition dict_setitem (l : loc) (k : string) (v : pyval) : M B () :=
  λ σ, (Return (),
        World (<[l := <[k := v]> (dicts σ !!! l)]> (dicts σ))
              (log σ) (trace σ) (ext σ)).

(** A dictionary display [{...}] handed to a callee: a new object. *)
Definition new_dict (d : row) : M B loc :=
  λ σ, let l := fresh (dom (dicts σ)) in
       (Return l, World (<[l := d]> (dicts σ)) (log σ) (trace σ) (ext σ)).

Definition logger_error (msg : string) : M B () :=
  λ σ, (Return (), World (dicts σ) (log σ ++ [msg]) (trace σ) (ext σ)).

(** One round trip: the request is recorded, then answered by the
    backend. *)
Definition execute (q : query) : M B (list row) :=
  λ σ, let '(o, b) := table_execute q (ext σ) in
       (o, World (dicts σ) (log σ) (trace σ ++ [Table q]) b).

Definition upload (bucket path : string) (content : bytes) : M B () :=
  λ σ, let '(o, b) := storage_upload bucket path content (ext σ) in
       (o, World (dicts σ) (log σ) (trace σ ++ [Upload bucket path content]) b).

Definition download (bucket : string) (path : pyval) : M B bytes :=
  λ σ, let '(o, b) := storage_download bucket path (ext σ) in
       (o, World (dicts σ) (log σ) (trace σ ++ [Download bucket path]) b).

(** [str(uuid.uuid4())] *)
Definition new_uuid : M B string :=
  λ σ, let '(u, b) := uuid4 (ext σ) in
       (Return u, World (dicts σ) (log σ) (trace σ) b).
End effects.

(** ** The [Database] class *)

Section database.
Context {B : Type} `{!Backend B}.

Definition required_fields : list string :=
  ["id"; "username"; "email"; "password_hash"].

Definition bucket_name : string := "influencer-assets".

(** [all(field in influencer_data for field in required_fields)] *)
Definition has_required_fields (d : row) : bool :=
  forallb (λ field, bool_decide (is_Some (d !! field))) required_fields.

(** [f"/chat/{username}"] *)
Definition chat_page_url (username : pyval) : pyval :=
  VStr ("/chat/" ++ py_str username).

(** [create_influencer(self, influencer_data)] *)
Definition create_influencer (influencer_data : loc) : M B (option row) :=
  d ← read_dict influencer_data;
  if negb (has_required_fields d) then
    logger_error "Missing required fields: {'id', 'username', 'email', 'password_hash'}";;
    mret None
  else
    username ← dict_getitem d "username";
    dict_setitem influencer_data "chat_page_url" (chat_page_url username);;
    try_except
      (d' ← read_dict influencer_data;
       data ← execute (Insert influencers d');
       mret (first_or_none data))
      (λ e, logger_error ("Error creating influencer: " ++ exn_str e);;
            mret None).

(** The three lookups share one shape; [col] is the filtered column. *)
Definition get_influencer_by (col : string) (v : string) : M B (option row) :=
  try_except
    (data ← execute (Select influencers (Some (col, v)));
     mret (first_or_none data))
    (λ e, logger_error ("Error getting influencer: " ++ exn_str e);;
          mret None).

Definition get_influencer_by_username (username : string) : M B (option row) :=
  get_influencer_by "username" username.

Definition get_influencer_by_email (email : string) : M B (option row) :=
  get_influencer_by "email" email.

Definition get_influencer (influencer_id : string) : M B (option row) :=
  get_influencer_by "id" influencer_id.

(** [update_influencer(self, influencer_id, updates)] *)
Definition update_influencer (influencer_id : string) (updates : loc) : M B bool :=
  d ← read_dict updates;
  if negb (dict_truthy d) then mret false
  else
    try_except
      (dict_setitem updates "updated_at" (VStr "now()");;
       d' ← read_dict updates;
       execute (Update influencers d' "id" influencer_id);;
       mret true)
      (λ e, logger_error ("Error updating influencer: " ++ exn_str e);;
            mret false).

Definition delete_influencer (influencer_id : string) : M B bool :=
  try_except
    (execute (Delete influencers "id" influencer_id);;
     mret true)
    (λ e, logger_error ("Error deleting influencer: " ++ exn_str e);;
          mret false).

Definition get_all_influencers : M B (list row) :=
  try_except
    (execute (Select influencers None))
    (λ e, logger_error ("Error getting all influencers: " ++ exn_str e);;
          mret []).

(** [f"original_avatars/{influencer_id}/{file_name}"] *)
Definition asset_path (influencer_id file_name : string) : string :=
  "original_avatars/" ++ influencer_id ++ "/" ++ file_name.

(** [updates['updated_at'] = 'now()'], as a value. *)
Definition stamped (updates : row) : row :=
  <["updated_at" := VStr "now()"]> updates.

(** What [create_influencer] sends: the caller's map with the chat page
    path set from its [username]. *)
Definition with_chat_page_url (d : row) : row :=
  <["chat_page_url" := chat_page_url (dict_get d "username")]> d.

Definition store_original_asset (influencer_id : string) (file_bytes : bytes)
    (file_name : string) : M B (option string) :=
  try_except
    (let file_path := asset_path influencer_id file_name in
     upload bucket_name file_path file_bytes;;
     updates ← new_dict {[ "original_asset_path" := VStr file_path ]};
     update_influencer influencer_id updates;;
     mret (Some file_path))
    (λ e, logger_error ("Error storing asset: " ++ exn_str e);;
          mret None).

Definition get_original_asset (influencer_id : string) : M B (option bytes) :=
  try_except
    (influencer ← get_influencer influencer_id;
     match influencer with
     | None => mret None
     | Some r =>
         if negb (dict_truthy r) || negb (truthy (dict_get r "original_asset_path"))
         then mret None
         else
           file_path ← dict_getitem r "original_asset_path";
           content ← download bucket_name file_path;
           mret (Some content)
     end)
    (λ e, logger_error ("Error retrieving original asset: " ++ exn_str e);;
          mret None).

(** What [None.get(...)] raises. *)
Definition attribute_error : exn :=
  AttributeError "'NoneType' object has no attribute 'get'".

(** [influencer.get('affiliate_id')] where [influencer] may be [None]. *)
Definition optional_get (o : option row) (k : string) : M B pyval :=
  match o with
  | Some r => mret (dict_get r k)
  | None => raise attribute_error
  end.

(** The dictionary [affiliate_data] built by [add_affiliate_link]. *)
Definition affiliate_data (uid influencer_id platform affiliate_id : string) : row :=
  {[ "id" := VStr uid;
     "influencer_id" := VStr influencer_id;
     "platform" := VStr platform;
     "affiliate_id" := VStr affiliate_id ]}.

Definition add_affiliate_link (influencer_id platform affiliate_id : string)
    : M B (option row) :=
  try_except
    (uid ← new_uuid;
     data ← execute (Insert affiliate_links
                       (affiliate_data uid influencer_id platform affiliate_id));
     influencer ← get_influencer influencer_id;
     current ← optional_get influencer "affiliate_id";
     (if negb (truthy current) then
        updates ← new_dict {[ "affiliate_id" := VStr affiliate_id ]};
        update_influencer influencer_id updates;;
        mret ()
      else mret ());;
     mret (first_or_none data))
    (λ e, logger_error ("Error adding affiliate link: " ++ exn_str e);;
          mret None).

Definition get_affiliate_links (influencer_id : string) : M B (list row) :=
  try_except
    (execute (Select affiliate_links (Some ("influencer_id", influencer_id))))
    (λ e, logger_error ("Error getting affiliate links: " ++ exn_str e);;
          mret []).

(** [None] is returned as [VNone]. *)
Definition get_primary_affiliate_id (influencer_id : string) : M B pyval :=
  try_except
    (influencer ← get_influencer influencer_id;
     match influencer with
     | Some r => if dict_truthy r then mret (dict_get r "affiliate_id") else mret VNone
     | None => mret VNone
     end)
    (λ e, logger_error ("Error getting primary affiliate ID: " ++ exn_str e);;
          mret VNone).

(** The dictionary [interaction_data] built by [log_chat_interaction]. *)
Definition interaction_data (uid influencer_id user_message bot_response : string)
    (product_recommendations : bool) : row :=
  {[ "id" := VStr uid;
     "influencer_id" := VStr influencer_id;
     "user_message" := VStr user_message;
     "bot_response" := VStr bot_response;
     "product_recommendations" := VBool product_recommendations ]}.

Definition log_chat_interaction (influencer_id user_message bot_response : string)
    (product_recommendations : bool) : M B (option row) :=
  try_except
    (uid ← new_uuid;
     data ← execute (Insert chat_interactions
                       (interaction_data uid influencer_id user_message
                          bot_response product_recommendations));
     mret (first_or_none data))
    (λ e, logger_error ("Error logging chat interaction: " ++ exn_str e);;
          mret None).
End database.

(** ** An in-memory backend

    The hosted service is outside the repository; this instance of
    [Backend] is the reference the stored-row properties are stated
    against.  Its tables follow the [CREATE TABLE] statements in
    [initialize_tables]: columns, [PRIMARY KEY], [UNIQUE], [NOT NULL],
    [DEFAULT] and the two foreign keys with [ON DELETE CASCADE].
    Timestamps are kept symbolic ([NOW()]); values are stored as sent.
    An answer carries the rows written or read, as [response.data]
    does; a select answers them in the order they were stored, which
    the hosted database does not promise, so statements about a listing
    speak of its rows up to their order.  The blob store is
    path-addressed, by the path as it is sent.
    The upload of [store_original_asset] passes no upsert option, so an
    upload to a path that holds an object is refused and the object
    stays.  Every request first consumes one entry of a scripted fault
    schedule; a scheduled fault raises before anything is written. *)

Module Mem.

Record db := Db {
  rows_influencers : list row;
  rows_affiliate_links : list row;
  rows_chat_interactions : list row;
  objects : gmap (string * string) bytes;   (* (bucket, path) |-> content *)
  faults : list bool;                       (* true: the request raises *)
  uuids : nat;                              (* identifiers handed out so far *)
}.

Definition rows_of (t : table) (d : db) : list row :=
  match t with
  | influencers => rows_influencers d
  | affiliate_links => rows_affiliate_links d
  | chat_interactions => rows_chat_interactions d
  end.

Definition set_rows (t : table) (rs : list row) (d : db) : db :=
  match t with
  | influencers =>
      Db rs (rows_affiliate_links d) (rows_chat_interactions d)
         (objects d) (faults d) (uuids d)
  | affiliate_links =>
      Db (rows_influencers d) rs (rows_chat_interactions d)
         (objects d) (faults d) (uuids d)
  | chat_interactions =>
      Db (rows_influencers d) (rows_affiliate_links d) rs
         (objects d) (faults d) (uuids d)
  end.

Definition set_objects (o : gmap (string * string) bytes) (d : db) : db :=
  Db (rows_influencers d) (rows_affiliate_links d) (rows_chat_interactions d)
     o (faults d) (uuids d).

Definition set_faults (fs : list bool) (d : db) : db :=
  Db (rows_influencers d) (rows_affiliate_links d) (rows_chat_interactions d)
     (objects d) fs (uuids d).

(** What is stored, without the schedule and the identifier counter. *)
Definition stored (d : db)
    : list row * list row * list row * gmap (string * string) bytes :=
  (rows_influencers d, rows_affiliate_links d, rows_chat_interactions d,
   objects d).

(** *** Schema *)

Definition columns (t : table) : list string :=
  match t with
  | influencers =>
      ["id"; "username"; "email"; "password_hash"; "heygen_avatar_id";
       "original_asset_path"; "voice_id"; "affiliate_id"; "chat_page_url";
       "created_at"; "updated_at"]
  | affiliate_links =>
      ["id"; "influencer_id"; "platform"; "affiliate_id";
       "created_at"; "updated_at"]
  | chat_interactions =>
      ["id"; "influencer_id"; "user_message"; "bot_response";
       "product_recommendations"; "created_at"]
  end.

(** [NOT NULL] columns; a primary key is one. *)
Definition not_null (t : table) : list string :=
  match t with
  | influencers => ["id"; "username"; "email"; "password_hash"]
  | affiliate_links => ["id"; "influencer_id"; "platform"; "affiliate_id"]
  | chat_interactions => ["id"; "influencer_id"; "user_message"; "bot_response"]
  end.

(** [PRIMARY KEY] and [UNIQUE] columns. *)
Definition unique (t : table) : list string :=
  match t with
  | influencers => ["id"; "username"; "email"]
  | affiliate_links => ["id"]
  | chat_interactions => ["id"]
  end.

(** Tables whose [influencer_id] references [influencers(id)]. *)
Definition references_influencer (t : table) : bool :=
  match t with
  | influencers => false
  | affiliate_links | chat_interactions => true
  end.

(** The value of every column the request left out: its [DEFAULT], or
    [NULL]. *)
Definition defaults (t : table) : row :=
  match t with
  | influencers =>
      {[ "heygen_avatar_id" := VNone;
         "original_asset_path" := VNone;
         "voice_id" := VStr "default_voice";
         "affiliate_id" := VNone;
         "chat_page_url" := VNone;
         "created_at" := VStr "NOW()";
         "updated_at" := VStr "NOW()" ]}
  | affiliate_links =>
      {[ "created_at" := VStr "NOW()";
         "updated_at" := VStr "NOW()" ]}
  | chat_interactions =>
      {[ "product_recommendations" := VBool false;
         "created_at" := VStr "NOW()" ]}
  end.

(** *** Row predicates *)

(** [.eq(col, v)] *)
Definition matches (col v : string) (r : row) : Prop :=
  r !! col = Some (VStr v).

#[global] Instance matches_dec col v r : Decision (matches col v r).
Proof. unfold matches. apply _. Defined.

Definition known_columns (t : table) (r : row) : bool :=
  bool_decide (map_Forall (λ k _, k ∈ columns t) r).

Definition not_null_ok (t : table) (r : row) : bool :=
  forallb (λ c, bool_decide (dict_get r c ≠ VNone)) (not_null t).

Definition unique_ok (t : table) (r : row) (existing : list row) : bool :=
  forallb (λ c, forallb (λ r0, bool_decide (r0 !! c ≠ r !! c)) existing)
          (unique t).

Definition parent_exists (r : row) (d : db) : bool :=
  existsb (λ p, bool_decide (p !! "id" = r !! "influencer_id"))
          (rows_influencers d).

Definition foreign_key_ok (t : table) (r : row) (d : db) : bool :=
  if references_influencer t then parent_exists r d else true.

Definition insert_ok (t : table) (r : row) (d : db) : bool :=
  known_columns t r && not_null_ok t r && unique_ok t r (rows_of t d)
  && foreign_key_ok t r d.

(** *** UPDATE *)

Definition apply_update (u : row) (col v : string) (r : row) : row :=
  if decide (matches col v r) then u ∪ r else r.

(** No updated [NOT NULL] column is set to [NULL]. *)
Definition update_not_null_ok (t : table) (u : row) : bool :=
  forallb (λ c, bool_decide (u !! c ≠ Some VNone)) (not_null t).

(** An updated unique column: at most one row takes the new value and
    no other row holds it already. *)
Definition update_unique_ok (t : table) (u : row) (col v : string)
    (rs : list row) : bool :=
  forallb (λ c,
    match u !! c with
    | None => true
    | Some x =>
        bool_decide (length (filter (matches col v) rs) ≤ 1)%nat
        && forallb (λ r0, bool_decide (matches col v r0)
                          || bool_decide (r0 !! c ≠ Some x)) rs
    end) (unique t).

(** Rows of [rs] that reference the influencer row [p]. *)
Definition children_of (p : row) (rs : list row) : list row :=
  filter (λ r, r !! "influencer_id" = p !! "id") rs.

(** A referenced [influencers.id] cannot be changed (the foreign keys
    have no [ON UPDATE] rule); a child cannot point to a missing
    parent. *)
Definition update_foreign_key_ok (t : table) (u : row) (col v : string)
    (d : db) : bool :=
  match t with
  | influencers =>
      match u !! "id" with
      | None => true
      | Some x =>
          forallb (λ p,
            bool_decide (p !! "id" = Some x)
            || (bool_decide (children_of p (rows_affiliate_links d) = [])
                && bool_decide (children_of p (rows_chat_interactions d) = [])))
            (filter (matches col v) (rows_influencers d))
      end
  | _ =>
      match u !! "influencer_id" with
      | None => true
      | Some _ => parent_exists u d
      end
  end.

Definition update_ok (t : table) (u : row) (col v : string) (d : db) : bool :=
  known_columns t u
  && (bool_decide (filter (matches col v) (rows_of t d) = [])
      || (update_not_null_ok t u
          && update_unique_ok t u col v (rows_of t d)
          && update_foreign_key_ok t u col v d)).

(** *** DELETE, with the cascade *)

Definition orphaned (gone : list row) (r : row) : Prop :=
  Exists (λ p, r !! "influencer_id" = p !! "id") gone.

#[global] Instance orphaned_dec gone r : Decision (orphaned gone r).
Proof. unfold orphaned. apply _. Defined.

Definition delete_rows (t : table) (col v : string) (d : db) : list row * db :=
  let gone := filter (matches col v) (rows_of t d) in
  let d1 := set_rows t (filter (λ r, ¬ matches col v r) (rows_of t d)) d in
  match t with
  | influencers =>
      (gone,
       set_rows chat_interactions
         (filter (λ r, ¬ orphaned gone r) (rows_chat_interactions d1))
         (set_rows affiliate_links
            (filter (λ r, ¬ orphaned gone r) (rows_affiliate_links d1)) d1))
  | _ => (gone, d1)
  end.

(** *** Requests *)

Definition unavailable : exn := BackendError "backend unavailable".

(** The next request is scheduled to fail. *)
Definition faulty (d : db) : bool :=
  match faults d with
  | true :: _ => true
  | _ => false
  end.

(** One entry of the schedule is consumed per request. *)
Definition tick (d : db) : db := set_faults (tail (faults d)) d.

Definition guarded {A} (f : db → outcome A * db) (d : db) : outcome A * db :=
  if faulty d then (Raise unavailable, tick d) else f (tick d).

Definition run_query (q : query) (d : db) : outcome (list row) * db :=
  match q with
  | Select t None => (Return (rows_of t d), d)
  | Select t (Some (col, v)) => (Return (filter (matches col v) (rows_of t d)), d)
  | Insert t r =>
      let r' := r ∪ defaults t in
      if insert_ok t r' d
      then (Return [r'], set_rows t (rows_of t d ++ [r']) d)
      else (Raise (BackendError "constraint violation"), d)
  | Update t u col v =>
      if update_ok t u col v d
      then (Return (apply_update u col v <$> filter (matches col v) (rows_of t d)),
            set_rows t (apply_update u col v <$> rows_of t d) d)
      else (Raise (BackendError "constraint violation"), d)
  | Delete t col v =>
      let '(gone, d') := delete_rows t col v d in (Return gone, d')
  end.

Definition duplicate : exn := BackendError "The resource already exists".

(** [.upload(path, file)] without [upsert]: a new object, or a refusal. *)
Definition put_object (bucket path : string) (content : bytes) (d : db)
    : outcome () * db :=
  match objects d !! (bucket, path) with
  | Some _ => (Raise duplicate, d)
  | None => (Return (), set_objects (<[(bucket, path) := content]> (objects d)) d)
  end.

Definition get_object (bucket : string) (path : pyval) (d : db)
    : outcome bytes * db :=
  match path with
  | VStr p =>
      match objects d !! (bucket, p) with
      | Some content => (Return content, d)
      | None => (Raise (BackendError "object not found"), d)
      end
  | _ => (Raise (BackendError "invalid path"), d)
  end.

Definition next_uuid (d : db) : string * db :=
  ("uuid-" ++ pretty (uuids d),
   Db (rows_influencers d) (rows_affiliate_links d) (rows_chat_interactions d)
      (objects d) (faults d) (S (uuids d))).

#[global] Instance backend : Backend db := {
  table_execute q := guarded (run_query q);
  storage_upload bucket path content := guarded (put_object bucket path content);
  storage_download bucket path := guarded (get_object bucket path);
  uuid4 := next_uuid;
}.

Definition empty : db := Db [] [] [] ∅ [] 0.

(** *** Reading the store *)

(** The stored influencer with the given id (the primary key admits at
    most one). *)
Definition influencer_row (influencer_id : string) (d : db) : option row :=
  head (filter (matches "id" influencer_id) (rows_influencers d)).

(** The influencer's default affiliate id; [VNone] when it is [NULL] or
    there is no such influencer. *)
Definition default_affiliate (influencer_id : string) (d : db) : pyval :=
  from_option (λ r, dict_get r "affiliate_id") VNone
              (influencer_row influencer_id d).

(** The chat page path of every stored influencer, row by row. *)
Definition chat_page_urls (d : db) : list (option pyval) :=
  (λ r : row, r !! "chat_page_url") <$> rows_influencers d.

End Mem.

(** ** Vocabulary of the statements *)

Section vocabulary.
Context {B : Type} `{!Backend B}.

(** The method returns a value in every world. *)
Definition never_raises {A} (m : M B A) : Prop :=
  ∀ σ, ∃ a σ', m σ = (Return a, σ').

(** The value returned, and the world left behind. *)
Definition result {A} (m : M B A) (σ : world B) : outcome A := fst (m σ).
Definition after {A} (m : M B A) (σ : world B) : world B := snd (m σ).

(** The requests sent while [m] runs from [σ]. *)
Definition sent {A} (m : M B A) (σ : world B) : list request :=
  drop (length (trace σ)) (trace (after m σ)).

(** The lines logged while [m] runs from [σ]. *)
Definition logged {A} (m : M B A) (σ : world B) : list string :=
  drop (length (log σ)) (log (after m σ)).

Definition table_raises (q : query) (b : B) : Prop :=
  ∃ e b', table_execute q b = (Raise e, b').

Definition table_answers (q : query) (b : B) : Prop :=
  ∃ data b', table_execute q b = (Return data, b').

Definition upload_raises (bucket path : string) (content : bytes) (b : B) : Prop :=
  ∃ e b', storage_upload bucket path content b = (Raise e, b').

(** An answer as the lookups read it: its first row, if it has one. *)
Definition first_reported (o : outcome (list row)) : option row :=
  match o with
  | Return data => first_or_none data
  | Raise _ => None
  end.

(** The row the backend reports for an influencer id, if any. *)
Definition reported_influencer (influencer_id : string) (b : B) : option row :=
  first_reported (table_execute (Select influencers (Some ("id", influencer_id))) b).1.
End vocabulary.

(** ** Vocabulary over the in-memory backend *)

(** The update [add_affiliate_link] sends when no default is set. *)
Definition default_update (a : string) : row :=
  stamped {[ "affiliate_id" := VStr a ]}.

(** The link row as stored. *)
Definition stored_link (d : Mem.db) (i p a : string) : row :=
  affiliate_data (Mem.next_uuid d).1 i p a ∪ Mem.defaults affiliate_links.

(** The update [store_original_asset] sends to record the path. *)
Definition asset_update (path : string) : row :=
  stamped {[ "original_asset_path" := VStr path ]}.

(** A call that returned a value other than [None]. *)
Definition succeeded {A} (o : outcome (option A)) : Prop :=
  ∃ a, o = Return (Some a).

(** The same, as a test. *)
Definition returned_some {A} (o : outcome (option A)) : bool :=
  match o with
  | Return (Some _) => true
  | _ => false
  end.

(** A call that returned [None]. *)
Definition returned_none {A} (o : outcome (option A)) : bool :=
  match o with
  | Return None => true
  | _ => false
  end.

(** ** Sample worlds *)

Definition alice : row :=
  {[ "id" := VStr "i1";
     "username" := VStr "alice";
     "email" := VStr "alice@example.com";
     "password_hash" := VStr "x" ]}.

(** [alice] as the backend stores her. *)
Definition alice_row : row :=
  with_chat_page_url alice ∪ Mem.defaults influencers.

(** A store that holds [alice] only, with the given fault schedule. *)
Definition db_alice (schedule : list bool) : Mem.db :=
  Mem.Db [alice_row] [] [] ∅ schedule 0.

Definition world_alice (schedule : list bool) : world Mem.db :=
  World ∅ [] [] (db_alice schedule).

(** An update map that changes the username. *)
Definition rename : row := {[ "username" := VStr "bob" ]}.

(** An empty store, and a caller holding [alice] at reference [0] and
    [rename] at reference [1]. *)
Definition world_new (schedule : list bool) : world Mem.db :=
  World {[ 0 := alice; 1 := rename ]} [] [] (Mem.Db [] [] [] ∅ schedule 0).

(** The store that holds [alice], and a caller holding [rename] at
    reference [0]. *)
Definition world_rename (schedule : list bool) : world Mem.db :=
  World {[ 0 := rename ]} [] [] (db_alice schedule).


(** ** Vocabulary of the further properties *)

(** A request that changes or removes rows of a table other than
    [influencers]. *)
Definition rewrites_dependent (r : request) : bool :=
  match r with
  | Table (Update t _ _ _) | Table (Delete t _ _) =>
      negb (bool_decide (t = influencers))
  | _ => false
  end.

Section frames.
Context {B : Type} `{!Backend B}.

(** The method sends the select [q] and nothing else, and leaves the
    caller's dictionaries as they are. *)
Definition selects_once {A} (m : M B A) (q : query) : Prop :=
  ∀ σ, sent m σ = [Table q] ∧ dicts (after m σ) = dicts σ.

(** The method sends the select [q], after it at most one download from
    the assets bucket, and nothing else; the caller's dictionaries are
    left as they are. *)
Definition selects_then_downloads {A} (m : M B A) (q : query) : Prop :=
  ∀ σ, (sent m σ = [Table q] ∨
        ∃ path, sent m σ = [Table q; Download bucket_name path]) ∧
       dicts (after m σ) = dicts σ.

(** The method never updates or deletes a row of [affiliate_links] or of
    [chat_interactions]. *)
Definition keeps_dependents {A} (m : M B A) : Prop :=
  ∀ σ, Forall (λ r, rewrites_dependent r = false) (sent m σ).
End frames.

(** ** Further sample worlds *)

(** The store that holds [alice], and a caller holding an empty map. *)
Definition world_empty_map : world Mem.db :=
  World {[ 0 := ∅ ]} [] [] (db_alice []).

(** The store after [alice] got a first affiliate link. *)
Definition world_linked : world Mem.db :=
  after (add_affiliate_link "i1" "amazon" "A") (world_alice []).

(** The store that holds [alice], and a caller holding [alice] again. *)
Definition world_again : world Mem.db :=
  World {[ 0 := alice ]} [] [] (db_alice []).

(** A second influencer, and the store that holds [alice] and [bob]. *)
Definition bob : row :=
  {[ "id" := VStr "i2";
     "username" := VStr "bob";
     "email" := VStr "bob@example.com";
     "password_hash" := VStr "y" ]}.

Definition bob_row : row :=
  with_chat_page_url bob ∪ Mem.defaults influencers.

Definition world_pair : world Mem.db :=
  World ∅ [] [] (Mem.Db [alice_row; bob_row] [] [] ∅ [] 0).

(** ** Start-up: [initialize_tables]

    [initialize_tables] makes two kinds of call that no other method
    makes: a probe [.table(t).select('*').limit(1).execute()], whose
    answer it discards, and [.rpc('execute_sql', {'sql': s}).execute()].
    A service answers or raises on each; the calls made are kept in a
    journal beside the service. *)

Inductive admin_request :=
  | Probe (t : table)
  | ExecuteSql (sql : string).

#[global] Instance admin_request_eq_dec : EqDecision admin_request.
Proof. solve_decision. Defined.

Class Admin (S : Type) := {
  probe : table → S → outcome () * S;
  rpc_execute_sql : string → S → outcome () * S;
}.

(** The statements sent, as the source spells them. *)
Definition create_influencers_sql : string := "
                    CREATE TABLE influencers (
                        id TEXT PRIMARY KEY,
                        username TEXT UNIQUE NOT NULL,
                        email TEXT UNIQUE NOT NULL,
                        password_hash TEXT NOT NULL,
                        heygen_avatar_id TEXT,
                        original_asset_path TEXT,
                        voice_id TEXT DEFAULT 'default_voice',
                        affiliate_id TEXT,
                        chat_page_url TEXT,
                        created_at TIMESTAMP WITH TIME ZONE DEFAULT NOW(),
                        updated_at TIMESTAMP WITH TIME ZONE DEFAULT NOW()
                    );
                    ".

Definition create_affiliate_links_sql : string := "
                    CREATE TABLE affiliate_links (
                        id TEXT PRIMARY KEY,
                        influencer_id TEXT NOT NULL,
                        platform TEXT NOT NULL,
                        affiliate_id TEXT NOT NULL,
                        created_at TIMESTAMP WITH TIME ZONE DEFAULT NOW(),
                        updated_at TIMESTAMP WITH TIME ZONE DEFAULT NOW(),
                        FOREIGN KEY (influencer_id) REFERENCES influencers(id) ON DELETE CASCADE
                    );
                    ".

Definition create_chat_interactions_sql : string := "
                    CREATE TABLE chat_interactions (
                        id TEXT PRIMARY KEY,
                        influencer_id TEXT NOT NULL,
                        user_message TEXT NOT NULL,
                        bot_response TEXT NOT NULL,
                        product_recommendations BOOLEAN DEFAULT FALSE,
                        created_at TIMESTAMP WITH TIME ZONE DEFAULT NOW(),
                        FOREIGN KEY (influencer_id) REFERENCES influencers(id) ON DELETE CASCADE
                    );
                    ".

Section startup.
Context {S : Type} `{!Admin S}.

Definition probe_table (t : table) : M (list admin_request * S) () :=
  λ σ, let '(o, s) := probe t (ext σ).2 in
       (o, World (dicts σ) (log σ) (trace σ) (((ext σ).1 ++ [Probe t])%list, s)).

Definition execute_sql (sql : string) : M (list admin_request * S) () :=
  λ σ, let '(o, s) := rpc_execute_sql sql (ext σ).2 in
       (o, World (dicts σ) (log σ) (trace σ) (((ext σ).1 ++ [ExecuteSql sql])%list, s)).

(** The log lines are written with [logger_error] of the methods, whose
    type mentions no backend. *)
Definition initialize_tables : M (list admin_request * S) () :=
  try_except
    (probe_table influencers)
    (λ _,
       try_except
         (execute_sql create_influencers_sql)
         (λ create_error,
            logger_error ("Influencers table creation failed: "
                          ++ exn_str create_error)));;
  try_except
    (probe_table affiliate_links)
    (λ _,
       try_except
         (execute_sql create_affiliate_links_sql)
         (λ create_error,
            logger_error ("Affiliate links table creation failed: "
                          ++ exn_str create_error)));;
  try_except
    (probe_table chat_interactions)
    (λ _,
       try_except
         (execute_sql create_chat_interactions_sql)
         (λ create_error,
            logger_error ("Chat interactions table creation failed: "
                          ++ exn_str create_error))).

(** The calls made while [m] runs from [σ]. *)
Definition calls {A} (m : M (list admin_request * S) A)
    (σ : world (list admin_request * S)) : list admin_request :=
  drop (length (ext σ).1) (ext (snd (m σ))).1.
End startup.

(** The statement that creates a table, and the head of the line logged
    when it fails. *)
Definition create_table_sql (t : table) : string :=
  match t with
  | influencers => create_influencers_sql
  | affiliate_links => create_affiliate_links_sql
  | chat_interactions => create_chat_interactions_sql
  end.

Definition creation_failed (t : table) : string :=
  match t with
  | influencers => "Influencers table creation failed: "
  | affiliate_links => "Affiliate links table creation failed: "
  | chat_interactions => "Chat interactions table creation failed: "
  end.

(** One of the three blocks of [initialize_tables], for any table. *)
Definition ensure_table {S : Type} `{!Admin S} (t : table)
    : M (list admin_request * S) () :=
  try_except
    (probe_table t)
    (λ _,
       try_except
         (execute_sql (create_table_sql t))
         (λ create_error,
            logger_error (creation_failed t ++ exn_str create_error))).

(** What a table gets in the journal: its probe, followed or not by its
    own [CREATE TABLE]. *)
Definition table_calls (t : table) (created : bool) : list admin_request :=
  Probe t :: (if created then [ExecuteSql (create_table_sql t)] else []).

(** *** A database that knows which tables exist

    A probe of a missing table raises.  [execute_sql] runs the three
    statements above and no other: [CREATE TABLE] raises when the table
    exists, and when the table it references does not. *)

Module Schema.

Record db := Db {
  has_influencers : bool;
  has_affiliate_links : bool;
  has_chat_interactions : bool;
}.

Definition has (t : table) (d : db) : bool :=
  match t with
  | influencers => has_influencers d
  | affiliate_links => has_affiliate_links d
  | chat_interactions => has_chat_interactions d
  end.

Definition add (t : table) (d : db) : db :=
  match t with
  | influencers => Db true (has_affiliate_links d) (has_chat_interactions d)
  | affiliate_links => Db (has_influencers d) true (has_chat_interactions d)
  | chat_interactions => Db (has_influencers d) (has_affiliate_links d) true
  end.

Definition select_limit_1 (t : table) (d : db) : outcome () * db :=
  if has t d then (Return (), d)
  else (Raise (BackendError "relation does not exist"), d).

Definition create_table (t : table) (d : db) : outcome () * db :=
  if has t d then (Raise (BackendError "relation already exists"), d)
  else if Mem.references_influencer t && negb (has influencers d)
  then (Raise (BackendError "referenced relation does not exist"), d)
  else (Return (), add t d).

(** The table a statement creates, if it is one of the three. *)
Definition created_by (sql : string) : option table :=
  head (filter (λ t, sql = create_table_sql t)
               [influencers; affiliate_links; chat_interactions]).

Definition run_sql (sql : string) (d : db) : outcome () * db :=
  match created_by sql with
  | Some t => create_table t d
  | None => (Raise (BackendError "syntax error"), d)
  end.

#[global] Instance admin : Admin db := {
  probe := select_limit_1;
  rpc_execute_sql := run_sql;
}.

Definition empty : db := Db false false false.
End Schema.

(** A caller with no dictionaries, nothing logged, an empty journal and
    an empty database. *)
Definition world_fresh : world (list admin_request * Schema.db) :=
  World ∅ [] [] ([], Schema.empty).

(** An empty store, and a caller holding a map that has all four
    required keys, the username being [None]. *)
Definition nameless : row :=
  {[ "id" := VStr "i9";
     "username" := VNone;
     "email" := VStr "n@example.com";
     "password_hash" := VStr "z" ]}.

Definition world_nameless : world Mem.db :=
  World {[ 0 := nameless ]} [] [] Mem.empty.

(** The store that holds [alice], whose id is ["i1"], and an influencer
    whose id is ["i1/x"]. *)
Definition nested : row :=
  {[ "id" := VStr "i1/x";
     "username" := VStr "carol";
     "email" := VStr "carol@example.com";
     "password_hash" := VStr "w" ]}.

Definition nested_row : row :=
  with_chat_page_url nested ∪ Mem.defaults influencers.

Definition world_nested : world Mem.db :=
  World ∅ [] [] (Mem.Db [alice_row; nested_row] [] [] ∅ [] 0).

(** * Proofs *)

(** ** Running the monad *)

Ltac unfold_monad :=
  unfold never_raises, result, after, table_raises, table_answers,
    upload_raises, reported_influencer, first_reported,
    mbind, M_bind, mret, M_ret, bind, ret, raise, try_except,
    execute, upload, download, new_uuid, logger_error, read_dict,
    dict_setitem, new_dict, dict_getitem, optional_get in *.




Section policy.
Context {B : Type} `{!Backend B}.

Lemma has_required_fields_spec (d : row) :
  has_required_fields d = true ↔ ∀ f, f ∈ required_fields → is_Some (d !! f).
Proof.
  unfold has_required_fields. rewrite forallb_forall.
  split; intros H f Hf.
  - apply list_elem_of_In in Hf. apply H in Hf. by apply bool_decide_eq_true in Hf.
  - apply bool_decide_eq_true, H. by apply list_elem_of_In.
Qed.


Lemma has_required_fields_username (d : row) :
  has_required_fields d = true → d !! "username" = Some (dict_get d "username").
Proof.
  intros H. rewrite has_required_fields_spec in H.
  destruct (H "username") as [v Hv]; [unfold required_fields; set_solver|].
  unfold dict_get. by rewrite Hv.
Qed.

(** What [create_influencer] does, in full. *)
Lemma create_influencer_run (l : loc) (σ : world B) :
  create_influencer l σ =
  let d := dicts σ !!! l in
  if has_required_fields d then
    let d' := with_chat_page_url d in
    let '(o, b) := table_execute (Insert influencers d') (ext σ) in
    let σ1 := World (<[l := d']> (dicts σ)) (log σ)
                    (trace σ ++ [Table (Insert influencers d')]) b in
    match o with
    | Return data => (Return (first_or_none data), σ1)
    | Raise e =>
        (Return None,
         World (dicts σ1) (log σ1 ++ ["Error creating influencer: " ++ exn_str e])
               (trace σ1) (ext σ1))
    end
  else
    (Return None,
     World (dicts σ)
           (log σ ++ ["Missing required fields: {'id', 'username', 'email', 'password_hash'}"])
           (trace σ) (ext σ)).
Proof.
  unfold create_influencer. unfold_monad. simpl.
  destruct (has_required_fields (dicts σ !!! l)) eqn:E; simpl; [|done].
  rewrite (has_required_fields_username _ E). simpl.
  rewrite lookup_total_insert_eq. unfold with_chat_page_url.
  by destruct (table_execute _ _) as [[?|?] ?].
Qed.




(** What [update_influencer] does, in full. *)
Lemma update_influencer_run (i : string) (l : loc) (σ : world B) :
  update_influencer i l σ =
  let d := dicts σ !!! l in
  if dict_truthy d then
    let q := Update influencers (stamped d) "id" i in
    let '(o, b) := table_execute q (ext σ) in
    let σ1 := World (<[l := stamped d]> (dicts σ)) (log σ)
                    (trace σ ++ [Table q]) b in
    match o with
    | Return _ => (Return true, σ1)
    | Raise e =>
        (Return false,
         World (dicts σ1) (log σ1 ++ ["Error updating influencer: " ++ exn_str e])
               (trace σ1) (ext σ1))
    end
  else (Return false, σ).
Proof.
  unfold update_influencer. unfold_monad. simpl.
  destruct (dict_truthy (dicts σ !!! l)); simpl; [|done].
  rewrite lookup_total_insert_eq. unfold stamped.
  by destruct (table_execute _ _) as [[?|?] ?].
Qed.

(** What the three lookups do, in full. *)
Lemma get_influencer_by_run (col v : string) (σ : world B) :
  get_influencer_by col v σ =
  let q := Select influencers (Some (col, v)) in
  let '(o, b) := table_execute q (ext σ) in
  let σ1 := World (dicts σ) (log σ) (trace σ ++ [Table q]) b in
  match o with
  | Return data => (Return (first_or_none data), σ1)
  | Raise e =>
      (Return None,
       World (dicts σ1) (log σ1 ++ ["Error getting influencer: " ++ exn_str e])
             (trace σ1) (ext σ1))
  end.
Proof.
  unfold get_influencer_by. unfold_monad. simpl.
  by destruct (table_execute _ _) as [[?|?] ?].
Qed.



Lemma sent_app {A} (m : M B A) (σ : world B) (rs : list request) :
  trace (after m σ) = (trace σ ++ rs)%list → sent m σ = rs.
Proof. unfold sent. intros ->. by rewrite drop_app_length. Qed.

Lemma sent_nil {A} (m : M B A) (σ : world B) :
  trace (after m σ) = trace σ → sent m σ = [].
Proof. unfold sent. intros ->. by rewrite drop_all. Qed.

Lemma dict_truthy_nonempty (d : row) : d ≠ ∅ → dict_truthy d = true.
Proof. intros H. unfold dict_truthy. by rewrite bool_decide_eq_false_2. Qed.


(** C10. With a non-empty map, [update_influencer] writes
    [updated_at = 'now()'] into the caller's own dictionary object and
    the one request it sends carries that stamped map: the caller's
    fields and [updated_at].  This holds whether the backend answers or
    raises; no other dictionary is touched. *)
Theorem update_influencer_stamps_caller_map (i : string) (l : loc) (d : row)
    (σ : world B) :
  dicts σ !! l = Some d →
  d ≠ ∅ →
  dicts (after (update_influencer i l) σ) !! l
    = Some (<["updated_at" := VStr "now()"]> d) ∧
  sent (update_influencer i l) σ
    = [Table (Update influencers (<["updated_at" := VStr "now()"]> d) "id" i)] ∧
  (∀ l', l' ≠ l → dicts (after (update_influencer i l) σ) !! l' = dicts σ !! l').
Proof.
  intros Hl Hd.
  assert (Hd' : dicts σ !!! l = d) by (by rewrite lookup_total_alt, Hl).
  split; [|split].
  - unfold after. rewrite update_influencer_run. simpl. rewrite Hd'.
    rewrite (dict_truthy_nonempty _ Hd).
    destruct (table_execute _ _) as [[?|?] ?]; simpl; by rewrite lookup_insert_eq.
  - apply sent_app. unfold after. rewrite update_influencer_run. simpl. rewrite Hd'.
    rewrite (dict_truthy_nonempty _ Hd).
    by destruct (table_execute _ _) as [[?|?] ?].
  - intros l' Hne. unfold after. rewrite update_influencer_run. simpl. rewrite Hd'.
    rewrite (dict_truthy_nonempty _ Hd).
    destruct (table_execute _ _) as [[?|?] ?]; simpl; by rewrite lookup_insert_ne.
Qed.


Lemma update_influencer_outcome (i : string) (l : loc) (d : row) (σ : world B) :
  dicts σ !! l = Some d →
  d ≠ ∅ →
  result (update_influencer i l) σ =
    Return (match (table_execute (Update influencers (stamped d) "id" i) (ext σ)).1 with
            | Return _ => true
            | Raise _ => false
            end).
Proof.
  intros Hl Hd.
  assert (Hd' : dicts σ !!! l = d) by (by rewrite lookup_total_alt, Hl).
  unfold result. rewrite update_influencer_run. simpl. rewrite Hd'.
  rewrite (dict_truthy_nonempty _ Hd).
  by destruct (table_execute _ _) as [[?|?] ?].
Qed.

Lemma get_all_influencers_outcome (σ : world B) :
  result get_all_influencers σ =
    Return (match (table_execute (Select influencers None) (ext σ)).1 with
            | Return data => data
            | Raise _ => []
            end).
Proof.
  unfold result, get_all_influencers. unfold_monad. simpl.
  by destruct (table_execute _ _) as [[?|?] ?].
Qed.

(** [get_influencer] returns what the backend reports. *)
Lemma get_influencer_reported (i : string) (σ : world B) :
  result (get_influencer i) σ = Return (reported_influencer i (ext σ)).
Proof.
  unfold result, get_influencer, reported_influencer.
  rewrite get_influencer_by_run. simpl.
  by destruct (table_execute _ _) as [[?|?] ?].
Qed.

Lemma get_influencer_trace (i : string) (σ : world B) :
  trace (after (get_influencer i) σ)
  = (trace σ ++ [Table (Select influencers (Some ("id", i)))])%list.
Proof.
  unfold after, get_influencer. rewrite get_influencer_by_run. simpl.
  by destruct (table_execute _ _) as [[?|?] ?].
Qed.

Lemma get_original_asset_no_path (i : string) (σ : world B) :
  (reported_influencer i (ext σ) = None ∨
   ∃ r, reported_influencer i (ext σ) = Some r
        ∧ truthy (dict_get r "original_asset_path") = false) →
  result (get_original_asset i) σ = Return None ∧
  sent (get_original_asset i) σ = [Table (Select influencers (Some ("id", i)))].
Proof.
  intros Hrep.
  pose proof (get_influencer_reported i σ) as Hres.
  pose proof (get_influencer_trace i σ) as Htr.
  unfold result, after in *.
  rewrite <- (sent_app (get_original_asset i) σ
                [Table (Select influencers (Some ("id", i)))]).
  2:{ unfold after, get_original_asset, try_except, mbind, M_bind, bind.
      destruct (get_influencer i σ) as [o σ1]. simpl in *. subst o.
      destruct Hrep as [-> | (r & -> & Hr)]; simpl; [done|].
      rewrite Hr. by rewrite orb_true_r. }
  split; [|done].
  unfold get_original_asset, try_except, mbind, M_bind, bind.
  destruct (get_influencer i σ) as [o σ1]. simpl in *. subst o.
  destruct Hrep as [-> | (r & -> & Hr)]; simpl; [done|].
  rewrite Hr. by rewrite orb_true_r.
Qed.


Lemma logged_app {A} (m : M B A) (σ : world B) (ls : list string) :
  log (after m σ) = (log σ ++ ls)%list → logged m σ = ls.
Proof. unfold logged. intros ->. by rewrite drop_app_length. Qed.

Lemma logged_nil {A} (m : M B A) (σ : world B) :
  log (after m σ) = log σ → logged m σ = [].
Proof. unfold logged. intros ->. by rewrite drop_all. Qed.

(** What [add_affiliate_link] does, in full. *)
Lemma add_affiliate_link_run (i p a : string) (σ : world B) :
  add_affiliate_link i p a σ =
  let '(u, b0) := uuid4 (ext σ) in
  let q1 := Insert affiliate_links (affiliate_data u i p a) in
  let q2 := Select influencers (Some ("id", i)) in
  let q3 := Update influencers (stamped {[ "affiliate_id" := VStr a ]}) "id" i in
  let '(o1, b1) := table_execute q1 b0 in
  match o1 with
  | Raise e =>
      (Return None,
       World (dicts σ) (log σ ++ ["Error adding affiliate link: " ++ exn_str e])
             (trace σ ++ [Table q1]) b1)
  | Return data =>
      let '(o2, b2) := table_execute q2 b1 in
      let t2 := (trace σ ++ [Table q1; Table q2])%list in
      match o2 with
      | Raise e =>
          (Return None,
           World (dicts σ)
                 (log σ ++ ["Error getting influencer: " ++ exn_str e;
                            "Error adding affiliate link: " ++ exn_str attribute_error])
                 t2 b2)
      | Return rows =>
          match first_or_none rows with
          | None =>
              (Return None,
               World (dicts σ)
                     (log σ ++ ["Error adding affiliate link: " ++ exn_str attribute_error])
                     t2 b2)
          | Some r =>
              if truthy (dict_get r "affiliate_id")
              then (Return (first_or_none data), World (dicts σ) (log σ) t2 b2)
              else
                let ds := <[fresh (dom (dicts σ)) :=
                              stamped {[ "affiliate_id" := VStr a ]}]> (dicts σ) in
                let '(o3, b3) := table_execute q3 b2 in
                (Return (first_or_none data),
                 World ds
                       (log σ ++ match o3 with
                                 | Return _ => []
                                 | Raise e => ["Error updating influencer: " ++ exn_str e]
                                 end)
                       (t2 ++ [Table q3]) b3)
          end
      end
  end.
Proof.
  unfold add_affiliate_link, get_influencer.
  unfold try_except at 1. unfold mbind, M_bind. unfold bind at 1.
  unfold new_uuid. destruct (uuid4 (ext σ)) as [u b0]. simpl.
  unfold bind at 1. unfold execute at 1. simpl.
  destruct (table_execute _ b0) as [[data|e1] b1]; simpl.
  2:{ unfold logger_error, bind, mret, M_ret, ret. simpl. done. }
  unfold bind at 1. rewrite get_influencer_by_run. simpl.
  destruct (table_execute _ b1) as [[rows|e2] b2]; simpl.
  2:{ unfold bind, optional_get, raise, logger_error, mret, M_ret, ret. simpl.
      by rewrite <- !(assoc_L app). }
  destruct (first_or_none rows) as [r|]; simpl.
  2:{ unfold bind, optional_get, raise, logger_error, mret, M_ret, ret. simpl.
      by rewrite <- !(assoc_L app). }
  unfold bind at 1. unfold mret, M_ret, ret. simpl.
  destruct (truthy (dict_get r "affiliate_id")); simpl.
  { unfold bind. simpl. by rewrite <- !(assoc_L app). }
  unfold bind at 1. unfold bind at 1. unfold bind at 1. unfold new_dict. simpl.
  rewrite update_influencer_run. simpl.
  rewrite lookup_total_insert_eq.
  rewrite dict_truthy_nonempty.
  2:{ intros Hemp. apply (f_equal (λ m : row, m !! "affiliate_id")) in Hemp.
      by rewrite lookup_singleton_eq, lookup_empty in Hemp. }
  rewrite insert_insert_eq.
  destruct (table_execute _ b2) as [[?|e3] b3]; simpl.
  all: rewrite <- ?(assoc_L app); simpl; rewrite ?app_nil_r; done.
Qed.


Lemma truthy_get_lookup (r : row) (k : string) :
  truthy (dict_get r k) = true → r !! k = Some (dict_get r k).
Proof. unfold dict_get. by destruct (r !! k). Qed.

Lemma singleton_row_nonempty (k : string) (v : pyval) : ({[ k := v ]} : row) ≠ ∅.
Proof.
  intros Hemp. apply (f_equal (λ m : row, m !! k)) in Hemp.
  by rewrite lookup_singleton_eq, lookup_empty in Hemp.
Qed.

(** What [store_original_asset] does, in full. *)
Lemma store_original_asset_run (i : string) (c : bytes) (f : string) (σ : world B) :
  store_original_asset i c f σ =
  let path := asset_path i f in
  let q := Update influencers (stamped {[ "original_asset_path" := VStr path ]}) "id" i in
  let '(o1, b1) := storage_upload bucket_name path c (ext σ) in
  let t1 := (trace σ ++ [Upload bucket_name path c])%list in
  match o1 with
  | Raise e =>
      (Return None,
       World (dicts σ) (log σ ++ ["Error storing asset: " ++ exn_str e]) t1 b1)
  | Return _ =>
      let ds := <[fresh (dom (dicts σ)) :=
                    stamped {[ "original_asset_path" := VStr path ]}]> (dicts σ) in
      let '(o2, b2) := table_execute q b1 in
      (Return (Some path),
       World ds
             (log σ ++ match o2 with
                       | Return _ => []
                       | Raise e => ["Error updating influencer: " ++ exn_str e]
                       end)
             (t1 ++ [Table q]) b2)
  end.
Proof.
  unfold store_original_asset.
  unfold try_except at 1. unfold mbind, M_bind. unfold bind at 1.
  unfold upload. simpl.
  destruct (storage_upload _ _ _ _) as [[[]|e1] b1]; simpl.
  2:{ unfold logger_error, bind, mret, M_ret, ret. simpl. done. }
  unfold bind at 1. unfold bind at 1. unfold new_dict. simpl.
  rewrite update_influencer_run. simpl.
  rewrite lookup_total_insert_eq.
  rewrite (dict_truthy_nonempty _ (singleton_row_nonempty _ _)).
  rewrite insert_insert_eq.
  destruct (table_execute _ b1) as [[?|e2] b2]; simpl.
  all: unfold mret, M_ret, ret; simpl; rewrite ?app_nil_r; done.
Qed.

(** What [get_original_asset] does, in full. *)
Lemma get_original_asset_run (i : string) (σ : world B) :
  get_original_asset i σ =
  let q := Select influencers (Some ("id", i)) in
  let '(o1, b1) := table_execute q (ext σ) in
  let t1 := (trace σ ++ [Table q])%list in
  match o1 with
  | Raise e =>
      (Return None,
       World (dicts σ) (log σ ++ ["Error getting influencer: " ++ exn_str e]) t1 b1)
  | Return rows =>
      match first_or_none rows with
      | None => (Return None, World (dicts σ) (log σ) t1 b1)
      | Some r =>
          if negb (dict_truthy r) || negb (truthy (dict_get r "original_asset_path"))
          then (Return None, World (dicts σ) (log σ) t1 b1)
          else
            let path := dict_get r "original_asset_path" in
            let '(o2, b2) := storage_download bucket_name path b1 in
            let t2 := (t1 ++ [Download bucket_name path])%list in
            match o2 with
            | Return content =>
                (Return (Some content), World (dicts σ) (log σ) t2 b2)
            | Raise e =>
                (Return None,
                 World (dicts σ)
                       (log σ ++ ["Error retrieving original asset: " ++ exn_str e])
                       t2 b2)
            end
      end
  end.
Proof.
  unfold get_original_asset, get_influencer.
  unfold try_except at 1. unfold mbind, M_bind. unfold bind at 1.
  rewrite get_influencer_by_run. simpl.
  destruct (table_execute _ _) as [[rows|e1] b1]; simpl; [|done].
  destruct (first_or_none rows) as [r|]; simpl; [|done].
  destruct (dict_truthy r); simpl; [|done].
  destruct (truthy (dict_get r "original_asset_path")) eqn:Ht; simpl; [|done].
  unfold bind at 1. unfold dict_getitem. rewrite (truthy_get_lookup _ _ Ht).
  unfold ret at 1. simpl. unfold bind, download. simpl.
  by destruct (storage_download _ _ _) as [[?|?] ?].
Qed.


End policy.

(** ** The in-memory backend, request by request *)

Lemma mem_table_execute (q : query) (d : Mem.db) :
  table_execute q d =
  if Mem.faulty d then (Raise Mem.unavailable, Mem.tick d)
  else Mem.run_query q (Mem.tick d).
Proof. reflexivity. Qed.

Lemma mem_stored_tick (d : Mem.db) : Mem.stored (Mem.tick d) = Mem.stored d.
Proof. reflexivity. Qed.

Lemma mem_rows_tick (t : table) (d : Mem.db) :
  Mem.rows_of t (Mem.tick d) = Mem.rows_of t d.
Proof. by destruct t. Qed.

Lemma mem_select_inv (t : table) (col v : string) (d d' : Mem.db) (o : outcome (list row)) :
  table_execute (Select t (Some (col, v))) d = (o, d') →
  d' = Mem.tick d ∧
  o = if Mem.faulty d then Raise Mem.unavailable
      else Return (filter (Mem.matches col v) (Mem.rows_of t d)).
Proof.
  rewrite mem_table_execute. unfold Mem.run_query.
  rewrite mem_rows_tick.
  destruct (Mem.faulty d); intros [= <- <-]; done.
Qed.

Lemma mem_insert_inv (t : table) (r : row) (d d' : Mem.db) (o : outcome (list row)) :
  table_execute (Insert t r) d = (o, d') →
  (o = Return [r ∪ Mem.defaults t] ∧
   Mem.faulty d = false ∧
   Mem.insert_ok t (r ∪ Mem.defaults t) (Mem.tick d) = true ∧
   d' = Mem.set_rows t (Mem.rows_of t d ++ [r ∪ Mem.defaults t]) (Mem.tick d)) ∨
  ((∃ e, o = Raise e) ∧ Mem.stored d' = Mem.stored d ∧
   (d' = Mem.tick d)).
Proof.
  rewrite mem_table_execute. unfold Mem.run_query.
  destruct (Mem.faulty d).
  - intros [= <- <-]. right. eauto.
  - destruct (Mem.insert_ok _ _ _) eqn:Hok; intros [= <- <-].
    + left. by rewrite mem_rows_tick.
    + right. eauto.
Qed.

Lemma mem_update_inv (t : table) (u : row) (col v : string) (d d' : Mem.db)
    (o : outcome (list row)) :
  table_execute (Update t u col v) d = (o, d') →
  ((∃ data, o = Return data) ∧
   Mem.faulty d = false ∧
   Mem.update_ok t u col v (Mem.tick d) = true ∧
   d' = Mem.set_rows t (Mem.apply_update u col v <$> Mem.rows_of t d) (Mem.tick d)) ∨
  ((∃ e, o = Raise e) ∧ d' = Mem.tick d).
Proof.
  rewrite mem_table_execute. unfold Mem.run_query.
  destruct (Mem.faulty d).
  - intros [= <- <-]. right. eauto.
  - destruct (Mem.update_ok _ _ _ _ _) eqn:Hok; intros [= <- <-].
    + left. rewrite mem_rows_tick. eauto.
    + right. eauto.
Qed.

Lemma mem_rows_set_same (t : table) (rs : list row) (d : Mem.db) :
  Mem.rows_of t (Mem.set_rows t rs d) = rs.
Proof. by destruct t. Qed.

Lemma mem_rows_set_other (t t' : table) (rs : list row) (d : Mem.db) :
  t ≠ t' → Mem.rows_of t' (Mem.set_rows t rs d) = Mem.rows_of t' d.
Proof. by destruct t, t'. Qed.

Lemma mem_objects_set_rows (t : table) (rs : list row) (d : Mem.db) :
  Mem.objects (Mem.set_rows t rs d) = Mem.objects d.
Proof. by destruct t. Qed.

Lemma mem_faults_set_rows (t : table) (rs : list row) (d : Mem.db) :
  Mem.faults (Mem.set_rows t rs d) = Mem.faults d.
Proof. by destruct t. Qed.

Lemma mem_uuid4 (d : Mem.db) : uuid4 d = Mem.next_uuid d.
Proof. reflexivity. Qed.

(** *** Updated rows *)

Lemma matches_apply_update (u : row) (col v : string) (r : row) :
  u !! col = None →
  Mem.matches col v (Mem.apply_update u col v r) ↔ Mem.matches col v r.
Proof.
  intros Hu. unfold Mem.apply_update, Mem.matches.
  case_decide as Hm; [|done].
  rewrite lookup_union_r by done. done.
Qed.

Lemma filter_apply_update (u : row) (col v : string) (rs : list row) :
  u !! col = None →
  filter (Mem.matches col v) (Mem.apply_update u col v <$> rs)
  = (λ r, u ∪ r) <$> filter (Mem.matches col v) rs.
Proof.
  intros Hu. induction rs as [|r rs IH]; [done|].
  rewrite fmap_cons, !filter_cons.
  destruct (decide (Mem.matches col v r)) as [Hm|Hm].
  - rewrite decide_True by (by apply matches_apply_update).
    rewrite fmap_cons, IH. f_equal.
    unfold Mem.apply_update. by rewrite decide_True.
  - rewrite decide_False by (by rewrite matches_apply_update).
    done.
Qed.

Lemma apply_update_no_match (u : row) (col v : string) (rs : list row) :
  filter (Mem.matches col v) rs = [] →
  Mem.apply_update u col v <$> rs = rs.
Proof.
  induction rs as [|r rs IH]; [done|].
  rewrite filter_cons. destruct (decide (Mem.matches col v r)) as [Hm|Hm]; [done|].
  intros Hf. rewrite fmap_cons, IH by done. f_equal.
  unfold Mem.apply_update. by rewrite decide_False.
Qed.

Lemma apply_update_lookup (u : row) (col v k : string) (r : row) :
  u !! k = None → Mem.apply_update u col v r !! k = r !! k.
Proof.
  intros Hu. unfold Mem.apply_update. case_decide; [|done].
  by rewrite lookup_union_r.
Qed.

Lemma influencer_row_update (u : row) (i : string) (d : Mem.db) :
  u !! "id" = None →
  Mem.influencer_row i
    (Mem.set_rows influencers
       (Mem.apply_update u "id" i <$> Mem.rows_influencers d) (Mem.tick d))
  = (λ r, u ∪ r) <$> Mem.influencer_row i d.
Proof.
  intros Hu. unfold Mem.influencer_row.
  change (Mem.rows_influencers ?x) with (Mem.rows_of influencers x).
  rewrite mem_rows_set_same, filter_apply_update by done.
  by destruct (filter _ _).
Qed.

Lemma mem_rows_next_uuid (t : table) (d : Mem.db) :
  Mem.rows_of t (Mem.next_uuid d).2 = Mem.rows_of t d.
Proof. by destruct t. Qed.

Lemma mem_stored_next_uuid (d : Mem.db) :
  Mem.stored (Mem.next_uuid d).2 = Mem.stored d.
Proof. reflexivity. Qed.

Lemma mem_stored_rows (d d' : Mem.db) :
  Mem.stored d' = Mem.stored d → ∀ t, Mem.rows_of t d' = Mem.rows_of t d.
Proof. unfold Mem.stored. intros [= ? ? ? ?] []; done. Qed.


Lemma default_update_id (a : string) : default_update a !! "id" = None.
Proof. reflexivity. Qed.

(** Every run of [add_affiliate_link] against the in-memory backend. *)
Lemma add_affiliate_link_mem (i p a : string) (σ : world Mem.db) :
  let m := add_affiliate_link i p a in
  let d := ext σ in
  let d' := ext (after m σ) in
  let link := stored_link d i p a in
  let q := Insert affiliate_links (affiliate_data (Mem.next_uuid d).1 i p a) in
  (* the insert raised *)
  (table_raises q (Mem.next_uuid d).2
   ∧ result m σ = Return None ∧ Mem.stored d' = Mem.stored d
   ∧ sent m σ = [Table q]) ∨
  table_answers q (Mem.next_uuid d).2 ∧
  (* the insert was accepted, the lookup found nothing or raised *)
  ((result m σ = Return None
   ∧ Mem.rows_affiliate_links d' = (Mem.rows_affiliate_links d ++ [link])%list
   ∧ Mem.rows_influencers d' = Mem.rows_influencers d
   ∧ logged m σ ≠ []) ∨
  (* the influencer has a default already *)
  (∃ r, result m σ = Return (Some link)
   ∧ Mem.influencer_row i d = Some r
   ∧ truthy (dict_get r "affiliate_id") = true
   ∧ Mem.rows_affiliate_links d' = (Mem.rows_affiliate_links d ++ [link])%list
   ∧ Mem.rows_influencers d' = Mem.rows_influencers d) ∨
  (* no default yet: the update is sent, and applied or refused *)
  (∃ r, result m σ = Return (Some link)
   ∧ Mem.influencer_row i d = Some r
   ∧ truthy (dict_get r "affiliate_id") = false
   ∧ Mem.rows_affiliate_links d' = (Mem.rows_affiliate_links d ++ [link])%list
   ∧ ((logged m σ = []
       ∧ Mem.rows_influencers d'
         = Mem.apply_update (default_update a) "id" i <$> Mem.rows_influencers d)
      ∨ (logged m σ ≠ [] ∧ Mem.rows_influencers d' = Mem.rows_influencers d)))).
Proof.
  intros m d d' link q. subst m d' q. unfold result, sent, logged, after.
  rewrite add_affiliate_link_run.
  change (uuid4 (ext σ)) with (Mem.next_uuid (ext σ)).
  destruct (Mem.next_uuid (ext σ)) as [u d0] eqn:Hu.
  assert (Hu1 : u = (Mem.next_uuid d).1) by (subst d; by rewrite Hu).
  assert (Hu2 : d0 = (Mem.next_uuid d).2) by (subst d; by rewrite Hu).
  assert (Hrows0 : ∀ t, Mem.rows_of t d0 = Mem.rows_of t d).
  { intros t. subst d. rewrite <- (mem_rows_next_uuid t (ext σ)). by rewrite Hu. }
  assert (Hst0 : Mem.stored d0 = Mem.stored d).
  { subst d. rewrite <- (mem_stored_next_uuid (ext σ)). by rewrite Hu. }
  cbv zeta.
  destruct (table_execute (Insert affiliate_links _) d0) as [o1 d1] eqn:E1.
  pose proof E1 as E1c. rewrite Hu1, Hu2 in E1c.
  apply mem_insert_inv in E1 as [(-> & _ & _ & Hd1)|((e1 & ->) & Hst1 & Hd1)].
  2:{ left. cbn [fst snd ext log trace dicts]. rewrite drop_app_length. subst u.
      split; [by exists e1, d1|].
      split; [done|]. split; [congruence|done]. }
  right. split; [by eexists _, d1|].
  assert (Hinf1 : Mem.rows_influencers d1 = Mem.rows_influencers d).
  { change (Mem.rows_of influencers d1 = Mem.rows_of influencers d).
    rewrite Hd1, mem_rows_set_other, mem_rows_tick by done. apply Hrows0. }
  assert (Hlink1 : Mem.rows_affiliate_links d1
                   = (Mem.rows_affiliate_links d ++ [link])%list).
  { change (Mem.rows_of affiliate_links d1
            = (Mem.rows_of affiliate_links d ++ [link])%list).
    rewrite Hd1, mem_rows_set_same, Hrows0. subst link u. done. }
  destruct (table_execute (Select influencers _) d1) as [o2 d2] eqn:E2.
  apply mem_select_inv in E2 as [Hd2 Ho2].
  assert (Hinf2 : Mem.rows_influencers d2 = Mem.rows_influencers d).
  { rewrite <- Hinf1, Hd2. apply (mem_rows_tick influencers). }
  assert (Hlink2 : Mem.rows_affiliate_links d2
                   = (Mem.rows_affiliate_links d ++ [link])%list).
  { rewrite <- Hlink1, Hd2. apply (mem_rows_tick affiliate_links). }
  change (Mem.rows_of influencers d1) with (Mem.rows_influencers d1) in Ho2.
  rewrite Hinf1 in Ho2.
  destruct (Mem.faulty d1).
  { subst o2. left. cbn [fst snd ext log trace dicts]. rewrite !drop_app_length. done. }
  subst o2. unfold first_or_none.
  change (head (filter (Mem.matches "id" i) (Mem.rows_influencers d)))
    with (Mem.influencer_row i d).
  destruct (Mem.influencer_row i d) as [r|] eqn:Hrow.
  2:{ left. cbn [fst snd ext log trace dicts]. rewrite !drop_app_length. done. }
  destruct (truthy (dict_get r "affiliate_id")) eqn:Ht.
  { right. left. exists r. cbn [fst snd ext log trace dicts].
    split; [by subst link u|]. done. }
  right. right. exists r.
  destruct (table_execute (Update influencers _ _ _) d2) as [o3 d3] eqn:E3.
  apply mem_update_inv in E3 as [((data & ->) & _ & _ & Hd3)|((e3 & ->) & Hd3)].
  - cbn [fst snd ext log trace dicts]. rewrite app_nil_r, drop_all.
    split; [by subst link u|]. split; [done|]. split; [done|].
    split.
    { rewrite <- Hlink2, Hd3.
      change (Mem.rows_of affiliate_links
                (Mem.set_rows influencers
                   (Mem.apply_update (stamped {["affiliate_id" := VStr a]}) "id" i
                      <$> Mem.rows_of influencers d2) (Mem.tick d2))
              = Mem.rows_of affiliate_links d2).
      by rewrite mem_rows_set_other, mem_rows_tick. }
    left. split; [done|].
    rewrite <- Hinf2, Hd3.
    change (Mem.rows_influencers ?x) with (Mem.rows_of influencers x).
    by rewrite mem_rows_set_same.
  - cbn [fst snd ext log trace dicts]. rewrite drop_app_length.
    split; [by subst link u|]. split; [done|]. split; [done|].
    split.
    { rewrite <- Hlink2, Hd3. apply (mem_rows_tick affiliate_links). }
    right. split; [done|].
    rewrite <- Hinf2, Hd3. apply (mem_rows_tick influencers).
Qed.

(** *** Reading the default affiliate id *)

Lemma influencer_row_same (i : string) (d d' : Mem.db) :
  Mem.rows_influencers d' = Mem.rows_influencers d →
  Mem.influencer_row i d' = Mem.influencer_row i d.
Proof. unfold Mem.influencer_row. by intros ->. Qed.

Lemma influencer_row_updated (u : row) (i : string) (d d' : Mem.db) :
  u !! "id" = None →
  Mem.rows_influencers d' = Mem.apply_update u "id" i <$> Mem.rows_influencers d →
  Mem.influencer_row i d' = (λ r, u ∪ r) <$> Mem.influencer_row i d.
Proof.
  intros Hu Hrows. unfold Mem.influencer_row.
  rewrite Hrows, filter_apply_update by done.
  by destruct (filter _ _).
Qed.

Lemma default_update_affiliate (a : string) (r : row) :
  dict_get (default_update a ∪ r) "affiliate_id" = VStr a.
Proof.
  unfold dict_get.
  rewrite (lookup_union_Some_l _ _ _ (VStr a)); [done|].
  unfold default_update, stamped.
  rewrite lookup_insert_ne by done. apply lookup_singleton_eq.
Qed.

Lemma truthy_VStr (a : string) : a ≠ "" → truthy (VStr a) = true.
Proof. intros Ha. unfold truthy. by rewrite bool_decide_eq_false_2. Qed.

(** Once a default is set, [add_affiliate_link] leaves the influencers
    table as it is, whatever the backend does. *)
Lemma add_affiliate_link_keeps_default (i p x : string) (σ : world Mem.db) :
  truthy (Mem.default_affiliate i (ext σ)) = true →
  Mem.rows_influencers (ext (after (add_affiliate_link i p x) σ))
  = Mem.rows_influencers (ext σ).
Proof.
  intros Hset.
  destruct (add_affiliate_link_mem i p x σ)
    as [(_ & _ & Hst & _)|[_ [(_ & _ & Hinf & _)|[(r & _ & _ & _ & _ & Hinf)|
        (r & _ & Hrow & Hunset & _)]]]].
  - apply (mem_stored_rows _ _ Hst influencers).
  - done.
  - done.
  - unfold Mem.default_affiliate in Hset. rewrite Hrow in Hset.
    cbn [from_option] in Hset. congruence.
Qed.

Lemma filter_apply_update_other (u : row) (i j : string) (rs : list row) :
  i ≠ j →
  u !! "id" = None →
  filter (Mem.matches "id" i) (Mem.apply_update u "id" j <$> rs)
  = filter (Mem.matches "id" i) rs.
Proof.
  intros Hij Hu. induction rs as [|r rs IH]; [done|].
  rewrite fmap_cons, !filter_cons, IH.
  unfold Mem.apply_update. destruct (decide (Mem.matches "id" j r)) as [Hj|Hj]; [|done].
  assert (Hr : ¬ Mem.matches "id" i r).
  { unfold Mem.matches in *. rewrite Hj. intros [= ->]. done. }
  assert (Hur : ¬ Mem.matches "id" i (u ∪ r)).
  { unfold Mem.matches in *. by rewrite lookup_union_r. }
  by rewrite !decide_False.
Qed.

(** A non-empty default survives every [add_affiliate_link] call, for
    this influencer or for any other. *)
Lemma add_affiliate_link_default_stable (i j p x : string) (σ : world Mem.db) :
  truthy (Mem.default_affiliate i (ext σ)) = true →
  Mem.default_affiliate i (ext (after (add_affiliate_link j p x) σ))
  = Mem.default_affiliate i (ext σ).
Proof.
  intros Hset. unfold Mem.default_affiliate. f_equal.
  destruct (add_affiliate_link_mem j p x σ)
    as [(_ & _ & Hst & _)|[_ [(_ & _ & Hinf & _)|[(r & _ & _ & _ & _ & Hinf)|
        (r & _ & Hrow & Hunset & _ & [(_ & Hrows)|(_ & Hinf)])]]]].
  - apply influencer_row_same, (mem_stored_rows _ _ Hst influencers).
  - by apply influencer_row_same.
  - by apply influencer_row_same.
  - destruct (decide (i = j)) as [->|Hij].
    + unfold Mem.default_affiliate in Hset. rewrite Hrow in Hset.
      cbn [from_option] in Hset. congruence.
    + unfold Mem.influencer_row. rewrite Hrows.
      by rewrite (filter_apply_update_other _ _ _ _ Hij (default_update_id x)).
  - by apply influencer_row_same.
Qed.

(** C2 (amended). For an influencer whose default affiliate id is unset
    ([NULL], or the empty string), a call [add_affiliate_link] with a
    non-empty id [a] that returns its row and logs no error sets the
    default to [a], and a following call with any id [b] leaves it at
    [a].  In general, once the default is a non-empty string no
    [add_affiliate_link] call, for this influencer or another, changes
    it, whatever the backend does; a call for this influencer leaves
    the whole influencers table as it is.  (An empty [a] is stored but
    still counts as unset.) *)
Theorem default_affiliate_first_write_wins :
  (∀ (σ : world Mem.db) (i p1 a p2 b : string),
     a ≠ "" →
     truthy (Mem.default_affiliate i (ext σ)) = false →
     succeeded (result (add_affiliate_link i p1 a) σ) →
     logged (add_affiliate_link i p1 a) σ = [] →
     let σ1 := after (add_affiliate_link i p1 a) σ in
     let σ2 := after (add_affiliate_link i p2 b) σ1 in
     Mem.default_affiliate i (ext σ1) = VStr a ∧
     Mem.default_affiliate i (ext σ2) = VStr a) ∧
  (∀ (σ : world Mem.db) (i j p x : string),
     truthy (Mem.default_affiliate i (ext σ)) = true →
     Mem.default_affiliate i (ext (after (add_affiliate_link j p x) σ))
     = Mem.default_affiliate i (ext σ) ∧
     Mem.rows_influencers (ext (after (add_affiliate_link i p x) σ))
     = Mem.rows_influencers (ext σ)).
Proof.
  split.
  - intros σ i p1 a p2 b Ha Hunset [link Hres] Hlog σ1 σ2.
    assert (H1 : Mem.default_affiliate i (ext σ1) = VStr a).
    { subst σ1 σ2.
      destruct (add_affiliate_link_mem i p1 a σ)
        as [(_ & Hnone & _)|[_ [(Hnone & _)|[(r & _ & Hrow & Hset & _)|
            (r & _ & Hrow & _ & _ & [(_ & Hrows)|(Hlogged & _)])]]]].
      - congruence.
      - congruence.
      - unfold Mem.default_affiliate in Hunset. rewrite Hrow in Hunset.
        cbn [from_option] in Hunset. congruence.
      - unfold Mem.default_affiliate.
        rewrite (influencer_row_updated _ _ _ _ (default_update_id a) Hrows), Hrow.
        cbn [fmap option_fmap option_map from_option].
        apply default_update_affiliate.
      - congruence. }
    split; [done|].
    subst σ2. unfold Mem.default_affiliate.
    rewrite (influencer_row_same i (ext σ1)); [exact H1|].
    apply add_affiliate_link_keeps_default.
    rewrite H1. by apply truthy_VStr.
  - intros σ i j p x Hset. split.
    + by apply add_affiliate_link_default_stable.
    + by apply add_affiliate_link_keeps_default.
Qed.

Lemma returned_some_succeeded {A} (o : outcome (option A)) :
  returned_some o = true ↔ succeeded o.
Proof.
  unfold succeeded. destruct o as [[a|]|e]; cbn; split; try done.
  - eauto.
  - by intros [? ?].
  - by intros [? ?].
Qed.

Lemma returned_none_spec {A} (o : outcome (option A)) :
  returned_none o = true ↔ o = Return None.
Proof. by destruct o as [[a|]|e]. Qed.

(** C2, the claim as stated fails: [alice] has no default; adding the
    empty affiliate id and then ["B"], both calls returning their row
    and logging nothing, leaves her default at ["B"], not at the first
    id. *)
Lemma empty_affiliate_id_is_overridden :
  let σ := world_alice [] in
  let σ1 := after (add_affiliate_link "i1" "amazon" "") σ in
  let σ2 := after (add_affiliate_link "i1" "ebay" "B") σ1 in
  Mem.default_affiliate "i1" (ext σ) = VNone ∧
  returned_some (result (add_affiliate_link "i1" "amazon" "") σ) = true ∧
  logged (add_affiliate_link "i1" "amazon" "") σ = [] ∧
  Mem.default_affiliate "i1" (ext σ1) = VStr "" ∧
  returned_some (result (add_affiliate_link "i1" "ebay" "B") σ1) = true ∧
  logged (add_affiliate_link "i1" "ebay" "B") σ1 = [] ∧
  Mem.default_affiliate "i1" (ext σ2) = VStr "B" ∧
  VStr "B" ≠ VStr "".
Proof.
  cbv zeta. repeat split; try (vm_compute; reflexivity). discriminate.
Qed.

Lemma default_affiliate_first_write_wins_witness :
  let σ := world_alice [] in
  let σ1 := after (add_affiliate_link "i1" "amazon" "A") σ in
  let σ2 := after (add_affiliate_link "i1" "ebay" "B") σ1 in
  Mem.default_affiliate "i1" (ext σ1) = VStr "A" ∧
  Mem.default_affiliate "i1" (ext σ2) = VStr "A".
Proof.
  apply (proj1 default_affiliate_first_write_wins
           (world_alice []) "i1" "amazon" "A" "ebay" "B").
  - discriminate.
  - vm_compute; reflexivity.
  - apply returned_some_succeeded. vm_compute; reflexivity.
  - vm_compute; reflexivity.
Defined.

Lemma table_raises_answers (q : query) (d : Mem.db) :
  table_raises q d → table_answers q d → False.
Proof. intros (e & d1 & H1) (data & d2 & H2). congruence. Qed.

(** What a [None] from [add_affiliate_link] leaves behind in the
    in-memory backend.  The influencers table is as before.  If the
    insert request itself raised, nothing stored has changed and no
    further request was sent.  If the insert was accepted, the [None]
    comes from the lookup that follows, and the new link row is in the
    table. *)
Lemma add_affiliate_link_none_keeps_influencers (σ : world Mem.db)
    (i p a : string) :
  result (add_affiliate_link i p a) σ = Return None →
  let d := ext σ in
  let d' := ext (after (add_affiliate_link i p a) σ) in
  let q := Insert affiliate_links (affiliate_data (Mem.next_uuid d).1 i p a) in
  Mem.rows_influencers d' = Mem.rows_influencers d ∧
  (table_raises q (Mem.next_uuid d).2 →
   Mem.stored d' = Mem.stored d ∧ sent (add_affiliate_link i p a) σ = [Table q]) ∧
  (table_answers q (Mem.next_uuid d).2 →
   Mem.rows_affiliate_links d'
   = (Mem.rows_affiliate_links d ++ [stored_link d i p a])%list).
Proof.
  intros Hnone d d' q. subst d d' q.
  destruct (add_affiliate_link_mem i p a σ)
    as [(Hraise & _ & Hst & Hsent)|[Hans [(_ & Hlinks & Hinf & _)|[(r & Hres & _)|
        (r & Hres & _)]]]].
  - split; [apply (mem_stored_rows _ _ Hst influencers)|].
    split; [done|].
    intros Hans. destruct (table_raises_answers _ _ Hraise Hans).
  - split; [done|]. split; [|done].
    intros Hraise. destruct (table_raises_answers _ _ Hraise Hans).
  - congruence.
  - congruence.
Qed.

(** C3. The failing input: a store that holds the influencer, the
    insert accepted, the lookup that follows raising.  [get_influencer]
    swallows that and returns [None]; [add_affiliate_link] calls [.get]
    on it without the test for [None] that [get_original_asset] and
    [get_primary_affiliate_id] make, so an [AttributeError] is caught
    and the call returns [None], although the link row is stored: the
    failure is not "nothing happened". *)
Lemma add_affiliate_link_none_after_insert :
  let σ := world_alice [false; true] in
  let m := add_affiliate_link "i1" "amazon" "A" in
  returned_none (result m σ) = true ∧
  length (sent m σ) = 2 ∧
  logged m σ = ["Error getting influencer: backend unavailable";
                "Error adding affiliate link: 'NoneType' object has no attribute 'get'"] ∧
  length (Mem.rows_affiliate_links (ext σ)) = 0 ∧
  length (Mem.rows_affiliate_links (ext (after m σ))) = 1 ∧
  Mem.stored (ext (after m σ)) ≠ Mem.stored (ext σ).
Proof.
  cbv zeta.
  assert (Hlen : length (Mem.rows_affiliate_links
                   (ext (after (add_affiliate_link "i1" "amazon" "A")
                           (world_alice [false; true])))) = 1)
    by (vm_compute; reflexivity).
  split; [vm_compute; reflexivity|].
  split; [vm_compute; reflexivity|].
  split; [vm_compute; reflexivity|].
  split; [vm_compute; reflexivity|].
  split; [exact Hlen|].
  intros Hst. apply (f_equal (λ s, length s.1.1.2)) in Hst.
  unfold Mem.stored in Hst. cbn [fst snd] in Hst. rewrite Hlen in Hst.
  vm_compute in Hst. discriminate.
Qed.

(** *** Requests when no fault is scheduled *)

Lemma mem_healthy (d : Mem.db) : Mem.faults d = [] → Mem.faulty d = false.
Proof. unfold Mem.faulty. by intros ->. Qed.

Lemma mem_faults_tick (d : Mem.db) : Mem.faults d = [] → Mem.faults (Mem.tick d) = [].
Proof. unfold Mem.tick. cbn [Mem.faults Mem.set_faults]. by intros ->. Qed.

Lemma mem_objects_tick (d : Mem.db) : Mem.objects (Mem.tick d) = Mem.objects d.
Proof. reflexivity. Qed.

Lemma mem_upload_healthy (k p : string) (c : bytes) (d : Mem.db) :
  Mem.faults d = [] →
  Mem.objects d !! (k, p) = None →
  storage_upload k p c d
  = (Return (), Mem.set_objects (<[(k, p) := c]> (Mem.objects d)) (Mem.tick d)).
Proof.
  intros Hf Hfree.
  change (storage_upload k p c d) with (Mem.guarded (Mem.put_object k p c) d).
  unfold Mem.guarded, Mem.put_object.
  by rewrite (mem_healthy _ Hf), mem_objects_tick, Hfree.
Qed.

Lemma mem_upload_duplicate (k p : string) (c c0 : bytes) (d : Mem.db) :
  Mem.faults d = [] →
  Mem.objects d !! (k, p) = Some c0 →
  storage_upload k p c d = (Raise Mem.duplicate, Mem.tick d).
Proof.
  intros Hf Hheld.
  change (storage_upload k p c d) with (Mem.guarded (Mem.put_object k p c) d).
  unfold Mem.guarded, Mem.put_object.
  by rewrite (mem_healthy _ Hf), mem_objects_tick, Hheld.
Qed.

Lemma mem_download_healthy (k p : string) (c : bytes) (d : Mem.db) :
  Mem.faults d = [] →
  Mem.objects d !! (k, p) = Some c →
  storage_download k (VStr p) d = (Return c, Mem.tick d).
Proof.
  intros Hf Hc.
  change (storage_download k (VStr p) d) with (Mem.guarded (Mem.get_object k (VStr p)) d).
  unfold Mem.guarded, Mem.get_object. rewrite (mem_healthy _ Hf).
  by rewrite mem_objects_tick, Hc.
Qed.

Lemma mem_select_healthy (t : table) (col v : string) (d : Mem.db) :
  Mem.faults d = [] →
  table_execute (Select t (Some (col, v))) d
  = (Return (filter (Mem.matches col v) (Mem.rows_of t d)), Mem.tick d).
Proof.
  intros Hf. rewrite mem_table_execute, (mem_healthy _ Hf).
  unfold Mem.run_query. by rewrite mem_rows_tick.
Qed.

Lemma mem_update_healthy (t : table) (u : row) (col v : string) (d : Mem.db) :
  Mem.faults d = [] →
  Mem.update_ok t u col v (Mem.tick d) = true →
  table_execute (Update t u col v) d
  = (Return (Mem.apply_update u col v <$> filter (Mem.matches col v) (Mem.rows_of t d)),
     Mem.set_rows t (Mem.apply_update u col v <$> Mem.rows_of t d) (Mem.tick d)).
Proof.
  intros Hf Hok. rewrite mem_table_execute, (mem_healthy _ Hf).
  unfold Mem.run_query. rewrite Hok. by rewrite mem_rows_tick.
Qed.

(** The update that records an asset path touches no constrained
    column: the backend accepts it in every state. *)
Lemma path_update_ok (p i : string) (d : Mem.db) :
  Mem.update_ok influencers (stamped {[ "original_asset_path" := VStr p ]}) "id" i d
  = true.
Proof.
  unfold Mem.update_ok.
  assert (Mem.known_columns influencers
            (stamped {[ "original_asset_path" := VStr p ]}) = true) as ->
    by (vm_compute; reflexivity).
  assert (Mem.update_not_null_ok influencers
            (stamped {[ "original_asset_path" := VStr p ]}) = true) as ->
    by (vm_compute; reflexivity).
  assert (Mem.update_unique_ok influencers
            (stamped {[ "original_asset_path" := VStr p ]}) "id" i
            (Mem.rows_of influencers d) = true) as ->
    by (vm_compute; reflexivity).
  assert (Mem.update_foreign_key_ok influencers
            (stamped {[ "original_asset_path" := VStr p ]}) "id" i d = true) as ->
    by (vm_compute; reflexivity).
  cbn [andb]. apply orb_true_r.
Qed.

Lemma asset_path_nonempty (i f : string) : asset_path i f ≠ "".
Proof. unfold asset_path. discriminate. Qed.

Lemma asset_update_path (p : string) (r : row) :
  (asset_update p ∪ r) !! "original_asset_path" = Some (VStr p).
Proof.
  apply lookup_union_Some_l. unfold asset_update, stamped.
  rewrite lookup_insert_ne by done. apply lookup_singleton_eq.
Qed.

Lemma asset_update_id (p : string) : asset_update p !! "id" = None.
Proof. reflexivity. Qed.

(** [store_original_asset] against a healthy backend that holds the
    influencer. *)
Lemma store_original_asset_mem (σ : world Mem.db) (i f : string) (c : bytes) (r : row) :
  Mem.faults (ext σ) = [] →
  Mem.objects (ext σ) !! (bucket_name, asset_path i f) = None →
  Mem.influencer_row i (ext σ) = Some r →
  let m := store_original_asset i c f in
  let path := asset_path i f in
  result m σ = Return (Some path) ∧
  sent m σ = [Upload bucket_name path c;
              Table (Update influencers (asset_update path) "id" i)] ∧
  logged m σ = [] ∧
  Mem.faults (ext (after m σ)) = [] ∧
  Mem.influencer_row i (ext (after m σ)) = Some (asset_update path ∪ r) ∧
  Mem.objects (ext (after m σ)) = <[(bucket_name, path) := c]> (Mem.objects (ext σ)).
Proof.
  intros Hf Hfree Hrow m path. subst m path.
  unfold result, sent, logged, after. rewrite store_original_asset_run. cbv zeta.
  fold (asset_update (asset_path i f)).
  rewrite (mem_upload_healthy _ _ _ _ Hf Hfree).
  set (d1 := Mem.set_objects _ (Mem.tick (ext σ))).
  assert (Hf1 : Mem.faults d1 = []) by (subst d1; by apply mem_faults_tick).
  rewrite (mem_update_healthy influencers (asset_update (asset_path i f)) "id" i
             d1 Hf1 (path_update_ok _ _ _)).
  cbn [fst snd ext log trace dicts].
  rewrite app_nil_r, drop_all, <- (assoc_L app), drop_app_length.
  split; [done|]. split; [done|]. split; [done|].
  split; [|split].
  - rewrite mem_faults_set_rows. by apply mem_faults_tick.
  - unfold Mem.influencer_row.
    change (Mem.rows_influencers ?x) with (Mem.rows_of influencers x).
    rewrite mem_rows_set_same.
    rewrite (filter_apply_update _ _ _ _ (asset_update_id _)).
    change (Mem.rows_of influencers d1) with (Mem.rows_influencers (ext σ)).
    unfold Mem.influencer_row in Hrow.
    destruct (filter _ _) as [|r0 rs]; [done|].
    cbn in Hrow. injection Hrow as ->. done.
  - by rewrite mem_objects_set_rows.
Qed.

(** [get_original_asset] against a healthy backend whose row records a
    path that the blob store holds. *)
Lemma get_original_asset_mem (σ : world Mem.db) (i p : string) (c : bytes) (r : row) :
  Mem.faults (ext σ) = [] →
  Mem.influencer_row i (ext σ) = Some r →
  r !! "original_asset_path" = Some (VStr p) →
  p ≠ "" →
  Mem.objects (ext σ) !! (bucket_name, p) = Some c →
  result (get_original_asset i) σ = Return (Some c).
Proof.
  intros Hf Hrow Hp Hne Hc.
  unfold result. rewrite get_original_asset_run. cbv zeta.
  rewrite (mem_select_healthy _ _ _ _ Hf).
  unfold first_or_none.
  change (head (filter (Mem.matches "id" i) (Mem.rows_of influencers (ext σ))))
    with (Mem.influencer_row i (ext σ)).
  rewrite Hrow.
  assert (Hget : dict_get r "original_asset_path" = VStr p)
    by (unfold dict_get; by rewrite Hp).
  rewrite Hget, (truthy_VStr _ Hne).
  rewrite dict_truthy_nonempty.
  2:{ intros ->. by rewrite lookup_empty in Hp. }
  cbn [negb orb].
  rewrite (mem_download_healthy _ _ c); [done|by apply mem_faults_tick|].
  by rewrite mem_objects_tick.
Qed.

Lemma store_original_asset_uploads {B : Type} `{!Backend B} (σ : world B)
    (i f : string) (c : bytes) :
  head (sent (store_original_asset i c f) σ)
  = Some (Upload bucket_name (asset_path i f) c).
Proof.
  assert (∃ rest, trace (after (store_original_asset i c f) σ)
                  = (trace σ ++ Upload bucket_name (asset_path i f) c :: rest)%list)
    as [rest Hrest].
  { unfold after. rewrite store_original_asset_run. cbv zeta.
    destruct (storage_upload _ _ _ _) as [[[]|e] b1].
    - destruct (table_execute _ _) as [o2 b2]. cbn [snd trace].
      rewrite <- (assoc_L app). eauto.
    - cbn [snd trace]. eauto. }
  by rewrite (sent_app _ _ _ Hrest).
Qed.

(** A second upload to a path that holds an object. *)
Lemma store_original_asset_refused (σ : world Mem.db) (i f : string) (c c0 : bytes) :
  Mem.faults (ext σ) = [] →
  Mem.objects (ext σ) !! (bucket_name, asset_path i f) = Some c0 →
  let m := store_original_asset i c f in
  result m σ = Return None ∧
  sent m σ = [Upload bucket_name (asset_path i f) c] ∧
  logged m σ = ["Error storing asset: The resource already exists"] ∧
  ext (after m σ) = Mem.tick (ext σ).
Proof.
  intros Hf Hheld m. subst m.
  unfold result, sent, logged, after. rewrite store_original_asset_run. cbv zeta.
  rewrite (mem_upload_duplicate _ _ _ _ _ Hf Hheld).
  cbn [fst snd ext log trace dicts].
  by rewrite !drop_app_length.
Qed.

(** On a healthy backend a returned path means the upload was accepted:
    the bucket held nothing at that path. *)
Lemma store_original_asset_accepted (σ : world Mem.db) (i f : string) (c : bytes)
    (p : string) :
  Mem.faults (ext σ) = [] →
  result (store_original_asset i c f) σ = Return (Some p) →
  Mem.objects (ext σ) !! (bucket_name, asset_path i f) = None.
Proof.
  intros Hf Hres.
  destruct (Mem.objects (ext σ) !! (bucket_name, asset_path i f)) as [c0|] eqn:E;
    [|done].
  destruct (store_original_asset_refused σ i f c c0 Hf E) as (Hnone & _).
  rewrite Hnone in Hres. discriminate Hres.
Qed.

(** C6 (amended).  On every backend the first request of
    [store_original_asset] uploads to ["original_avatars/{I}/{f}"], a
    function of the id and the file name alone.  Against a backend on
    which no request fails and which holds influencer [I]: when storing
    [c] returns the path, [get_original_asset] then returns exactly
    [c]; storing [c2] under the same name sends its upload to the same
    path, which is refused as the object exists: the call returns
    [None], nothing stored changes and [get_original_asset] still
    returns [c]. *)
Theorem asset_round_trip :
  (∀ (B : Type) (backend : Backend B) (σ : world B) (i f : string) (c : bytes),
     head (sent (store_original_asset i c f) σ)
     = Some (Upload bucket_name (asset_path i f) c)
     ∧ asset_path i f = "original_avatars/" ++ i ++ "/" ++ f) ∧
  (∀ (σ : world Mem.db) (i f : string) (c c2 : bytes) (r : row),
     Mem.faults (ext σ) = [] →
     Mem.influencer_row i (ext σ) = Some r →
     result (store_original_asset i c f) σ = Return (Some (asset_path i f)) →
     let σ1 := after (store_original_asset i c f) σ in
     let σ2 := after (store_original_asset i c2 f) σ1 in
     result (get_original_asset i) σ1 = Return (Some c) ∧
     result (store_original_asset i c2 f) σ1 = Return None ∧
     sent (store_original_asset i c2 f) σ1
     = [Upload bucket_name (asset_path i f) c2] ∧
     Mem.stored (ext σ2) = Mem.stored (ext σ1) ∧
     result (get_original_asset i) σ2 = Return (Some c)).
Proof.
  split.
  - intros B backend σ i f c. split; [apply store_original_asset_uploads|done].
  - intros σ i f c c2 r Hf Hrow Hres σ1 σ2.
    assert (Hfree := store_original_asset_accepted σ i f c _ Hf Hres).
    destruct (store_original_asset_mem σ i f c r Hf Hfree Hrow)
      as (_ & _ & _ & Hf1 & Hrow1 & Hobj1).
    fold σ1 in Hf1, Hrow1, Hobj1.
    assert (Hheld : Mem.objects (ext σ1) !! (bucket_name, asset_path i f) = Some c).
    { rewrite Hobj1. apply lookup_insert_eq. }
    destruct (store_original_asset_refused σ1 i f c2 c Hf1 Hheld)
      as (Hres2 & Hsent2 & _ & Hext2).
    fold σ2 in Hext2.
    split.
    { apply (get_original_asset_mem σ1 i (asset_path i f) c _ Hf1 Hrow1).
      - apply asset_update_path.
      - apply asset_path_nonempty.
      - exact Hheld. }
    split; [done|]. split; [done|]. split; [by rewrite Hext2|].
    apply (get_original_asset_mem σ2 i (asset_path i f) c
             (asset_update (asset_path i f) ∪ r)).
    + rewrite Hext2. by apply mem_faults_tick.
    + by rewrite Hext2.
    + apply asset_update_path.
    + apply asset_path_nonempty.
    + by rewrite Hext2.
Qed.

(** C6, the claim as stated fails twice.  The upload succeeds, the
    update that records the path raises inside [update_influencer],
    which swallows it: [store_original_asset] still returns the path,
    and [get_original_asset], on a backend that is healthy again,
    returns [None].  And with no failure at all, storing again under
    the same name returns [None] and the bucket keeps the first bytes:
    nothing is overwritten. *)
Lemma stored_asset_not_retrievable :
  (let σ := world_alice [false; true] in
   let store := store_original_asset "i1" [x61; x62; x63] "avatar.png" in
   let σ1 := after store σ in
   returned_some (result store σ) = true ∧
   logged store σ = ["Error updating influencer: backend unavailable"] ∧
   Mem.faults (ext σ1) = [] ∧
   returned_none (result (get_original_asset "i1") σ1) = true) ∧
  (let σ := world_alice [] in
   let store := store_original_asset "i1" [x61; x62; x63] "avatar.png" in
   let again := store_original_asset "i1" [x64] "avatar.png" in
   let σ1 := after store σ in
   let σ2 := after again σ1 in
   returned_some (result store σ) = true ∧
   returned_none (result again σ1) = true ∧
   logged again σ1 = ["Error storing asset: The resource already exists"] ∧
   Mem.objects (ext σ2) !! (bucket_name, "original_avatars/i1/avatar.png")
   = Some [x61; x62; x63]).
Proof. cbv zeta. repeat split; vm_compute; reflexivity. Qed.

Lemma asset_round_trip_witness :
  let σ := world_alice [] in
  let σ1 := after (store_original_asset "i1" [x61; x62; x63] "avatar.png") σ in
  let σ2 := after (store_original_asset "i1" [x64] "avatar.png") σ1 in
  result (get_original_asset "i1") σ1 = Return (Some [x61; x62; x63]) ∧
  result (get_original_asset "i1") σ2 = Return (Some [x61; x62; x63]).
Proof.
  destruct (proj2 asset_round_trip (world_alice []) "i1" "avatar.png"
              [x61; x62; x63] [x64] alice_row)
    as (Hget1 & _ & _ & _ & Hget2).
  - reflexivity.
  - reflexivity.
  - reflexivity.
  - split; [exact Hget1|exact Hget2].
Defined.

(** *** What the in-memory backend reports *)

Lemma mem_reported_influencer (i : string) (d : Mem.db) :
  reported_influencer i d
  = if Mem.faulty d then None else Mem.influencer_row i d.
Proof.
  unfold reported_influencer. rewrite mem_table_execute.
  unfold Mem.run_query. rewrite mem_rows_tick. by destruct (Mem.faulty d).
Qed.

Lemma mem_select_all (t : table) (d : Mem.db) :
  (table_execute (Select t None) d).1
  = if Mem.faulty d then Raise Mem.unavailable else Return (Mem.rows_of t d).
Proof.
  rewrite mem_table_execute. unfold Mem.run_query. rewrite mem_rows_tick.
  by destruct (Mem.faulty d).
Qed.

Lemma mem_update_no_match (u : row) (i : string) (d : Mem.db) :
  Mem.faulty d = false →
  Mem.known_columns influencers u = true →
  Mem.influencer_row i d = None →
  ∃ d', table_execute (Update influencers u "id" i) d = (Return [], d')
        ∧ Mem.stored d' = Mem.stored d.
Proof.
  intros Hf Hk Hrow.
  assert (Hnone : filter (Mem.matches "id" i) (Mem.rows_of influencers d) = []).
  { unfold Mem.influencer_row in Hrow.
    change (Mem.rows_influencers d) with (Mem.rows_of influencers d) in Hrow.
    by destruct (filter _ _). }
  rewrite mem_table_execute, Hf. unfold Mem.run_query, Mem.update_ok.
  rewrite Hk, mem_rows_tick, Hnone.
  rewrite bool_decide_eq_true_2 by reflexivity. cbn [andb orb fmap list_fmap].
  eexists. split; [reflexivity|].
  rewrite (apply_update_no_match _ _ _ _ Hnone).
  unfold Mem.stored. by destruct d.
Qed.

(** C9. [get_all_influencers] returns the rows the backend answers with,
    and the empty list when the backend raises: always a list, never an
    exception.  Against the in-memory backend the answer is the whole
    influencers table. *)
Theorem get_all_influencers_rows_or_empty :
  (∀ (B : Type) (backend : Backend B) (σ : world B),
     result get_all_influencers σ
     = Return (match (table_execute (Select influencers None) (ext σ)).1 with
               | Return data => data
               | Raise _ => []
               end)) ∧
  (∀ σ : world Mem.db,
     result get_all_influencers σ
     = Return (if Mem.faulty (ext σ) then [] else Mem.rows_influencers (ext σ))).
Proof.
  split.
  - intros B backend σ. apply get_all_influencers_outcome.
  - intros σ. rewrite get_all_influencers_outcome, mem_select_all.
    by destruct (Mem.faulty (ext σ)).
Qed.

(** C5. With a non-empty map, [update_influencer] returns [True] whenever
    the backend answers the update, with whatever rows and with none at
    all, and returns [False] exactly when the backend raises.  Against
    the in-memory backend an update of an id that no influencer has is
    answered with no rows (the columns being known and no fault
    scheduled): the call returns [True] and changes nothing stored. *)
Theorem update_influencer_reports_success :
  (∀ (B : Type) (backend : Backend B) (σ : world B) (i : string) (l : loc) (d : row),
     dicts σ !! l = Some d →
     d ≠ ∅ →
     let q := Update influencers (stamped d) "id" i in
     (table_answers q (ext σ) → result (update_influencer i l) σ = Return true) ∧
     (∀ b', table_execute q (ext σ) = (Return [], b') →
            result (update_influencer i l) σ = Return true) ∧
     (result (update_influencer i l) σ = Return false ↔ table_raises q (ext σ))) ∧
  (∀ (σ : world Mem.db) (i : string) (l : loc) (d : row),
     dicts σ !! l = Some d →
     d ≠ ∅ →
     Mem.influencer_row i (ext σ) = None →
     Mem.faulty (ext σ) = false →
     Mem.known_columns influencers (stamped d) = true →
     result (update_influencer i l) σ = Return true ∧
     Mem.stored (ext (after (update_influencer i l) σ)) = Mem.stored (ext σ)).
Proof.
  split.
  - intros B backend σ i l d Hl Hd q. subst q.
    rewrite (update_influencer_outcome i l d σ Hl Hd).
    split; [|split; [|split]].
    + intros (data & b' & ->). done.
    + intros b' ->. done.
    + destruct (table_execute _ _) as [[data|e] b'] eqn:E; cbn [fst]; [done|].
      intros _. by exists e, b'.
    + intros (e & b' & ->). done.
  - intros σ i l d Hl Hd Hrow Hf Hk.
    destruct (mem_update_no_match (stamped d) i (ext σ) Hf Hk Hrow) as (d' & Hq & Hst).
    split.
    + rewrite (update_influencer_outcome i l d σ Hl Hd), Hq. done.
    + unfold after. rewrite update_influencer_run. cbv zeta.
      assert (Hd' : dicts σ !!! l = d) by (by rewrite lookup_total_alt, Hl).
      rewrite Hd', (dict_truthy_nonempty _ Hd), Hq. done.
Qed.

Lemma sent_select_no_download (i : string) :
  Forall (λ q, is_download q = false) [Table (Select influencers (Some ("id", i)))].
Proof. by constructor. Qed.

(** C8. When the backend reports no influencer for the id, or reports a
    row whose [original_asset_path] is [NULL], absent or empty,
    [get_original_asset] returns [None] and the lookup is the only
    request it sends: the blob store is not contacted.  Against the
    in-memory backend this covers every id with no stored row and every
    stored row without a path. *)
Theorem get_original_asset_without_path :
  (∀ (B : Type) (backend : Backend B) (σ : world B) (i : string),
     reported_influencer i (ext σ) = None ∨
     (∃ r, reported_influencer i (ext σ) = Some r
           ∧ truthy (dict_get r "original_asset_path") = false) →
     result (get_original_asset i) σ = Return None ∧
     sent (get_original_asset i) σ = [Table (Select influencers (Some ("id", i)))] ∧
     Forall (λ q, is_download q = false) (sent (get_original_asset i) σ)) ∧
  (∀ (σ : world Mem.db) (i : string),
     Mem.influencer_row i (ext σ) = None ∨
     (∃ r, Mem.influencer_row i (ext σ) = Some r
           ∧ truthy (dict_get r "original_asset_path") = false) →
     result (get_original_asset i) σ = Return None ∧
     Forall (λ q, is_download q = false) (sent (get_original_asset i) σ)).
Proof.
  split.
  - intros B backend σ i Hrep.
    destruct (get_original_asset_no_path i σ Hrep) as [Hres Hsent].
    split; [done|]. split; [done|].
    rewrite Hsent. apply sent_select_no_download.
  - intros σ i Hrow.
    assert (Hrep : reported_influencer i (ext σ) = None ∨
                   (∃ r, reported_influencer i (ext σ) = Some r
                         ∧ truthy (dict_get r "original_asset_path") = false)).
    { rewrite mem_reported_influencer. destruct (Mem.faulty (ext σ)); [by left|done]. }
    destruct (get_original_asset_no_path i σ Hrep) as [Hres Hsent].
    split; [done|]. rewrite Hsent. apply sent_select_no_download.
Qed.

(** *** Creating and updating against the in-memory backend *)

Lemma insert_ok_unique_id (r : row) (d : Mem.db) :
  Mem.insert_ok influencers r d = true →
  Forall (λ r0 : row, r0 !! "id" ≠ r !! "id") (Mem.rows_influencers d).
Proof.
  unfold Mem.insert_ok. intros Hok.
  apply andb_prop in Hok as [Hok _]. apply andb_prop in Hok as [_ Hu].
  unfold Mem.unique_ok, Mem.unique in Hu. cbn [forallb] in Hu.
  apply andb_prop in Hu as [Hid _].
  apply Forall_forall. intros r0 Hr0.
  rewrite forallb_forall in Hid. specialize (Hid r0).
  apply bool_decide_eq_true in Hid; [done|].
  by apply list_elem_of_In.
Qed.

Lemma filter_matches_fresh (i : string) (r : row) (rs : list row) :
  r !! "id" = Some (VStr i) →
  Forall (λ r0 : row, r0 !! "id" ≠ r !! "id") rs →
  filter (Mem.matches "id" i) (rs ++ [r])%list = [r].
Proof.
  intros Hid Hfresh. rewrite filter_app.
  assert (filter (Mem.matches "id" i) rs = []) as ->.
  { induction Hfresh as [|r0 rs Hr0 _ IH]; [done|].
    rewrite filter_cons, decide_False; [done|].
    unfold Mem.matches. congruence. }
  rewrite filter_cons, decide_True by done. done.
Qed.

(** A successful [create_influencer]: the row returned is the caller's
    map with the chat page path, completed with the column defaults; it
    is appended to the table, where no row had its id. *)
Lemma create_influencer_mem (σ : world Mem.db) (l : loc) (d r : row) :
  dicts σ !! l = Some d →
  result (create_influencer l) σ = Return (Some r) →
  r = with_chat_page_url d ∪ Mem.defaults influencers ∧
  Mem.rows_influencers (ext (after (create_influencer l) σ))
  = (Mem.rows_influencers (ext σ) ++ [r])%list ∧
  Forall (λ r0 : row, r0 !! "id" ≠ r !! "id") (Mem.rows_influencers (ext σ)).
Proof.
  intros Hl. unfold result, after. rewrite create_influencer_run. cbv zeta.
  assert (Hd : dicts σ !!! l = d) by (by rewrite lookup_total_alt, Hl).
  rewrite Hd. destruct (has_required_fields d); [|done].
  destruct (table_execute _ _) as [o d1] eqn:E.
  apply mem_insert_inv in E as [(-> & _ & Hok & Hd1)|((e & ->) & _ & _)]; [|done].
  cbn [fst snd ext first_or_none head]. intros [= <-].
  apply insert_ok_unique_id in Hok.
  split; [done|]. split; [|done].
  rewrite Hd1. change (Mem.rows_influencers ?x) with (Mem.rows_of influencers x).
  by rewrite mem_rows_set_same.
Qed.

(** Every run of [update_influencer] against the in-memory backend: the
    update is applied to the rows with the id, or nothing stored changes. *)
Lemma update_influencer_mem (σ : world Mem.db) (i : string) (l : loc) (upd : row) :
  dicts σ !! l = Some upd →
  let m := update_influencer i l in
  (result m σ = Return true ∧
   Mem.rows_influencers (ext (after m σ))
   = Mem.apply_update (stamped upd) "id" i <$> Mem.rows_influencers (ext σ)) ∨
  (result m σ = Return false ∧
   Mem.rows_influencers (ext (after m σ)) = Mem.rows_influencers (ext σ)).
Proof.
  intros Hl m. subst m. unfold result, after. rewrite update_influencer_run. cbv zeta.
  assert (Hd : dicts σ !!! l = upd) by (by rewrite lookup_total_alt, Hl).
  rewrite Hd. destruct (dict_truthy upd); [|by right].
  destruct (table_execute _ _) as [o d1] eqn:E.
  apply mem_update_inv in E as [((data & ->) & _ & _ & Hd1)|((e & ->) & Hd1)].
  - left. cbn [fst snd ext]. split; [done|].
    rewrite Hd1. change (Mem.rows_influencers ?x) with (Mem.rows_of influencers x).
    by rewrite mem_rows_set_same.
  - right. cbn [fst snd ext]. split; [done|].
    rewrite Hd1. apply (mem_rows_tick influencers).
Qed.

Lemma stamped_lookup_ne (upd : row) (k : string) :
  k ≠ "updated_at" → stamped upd !! k = upd !! k.
Proof. intros Hk. unfold stamped. by rewrite lookup_insert_ne. Qed.

Lemma with_chat_page_url_lookup (d : row) (u : string) :
  d !! "username" = Some (VStr u) →
  with_chat_page_url d !! "chat_page_url" = Some (VStr ("/chat/" ++ u)).
Proof.
  intros Hu. unfold with_chat_page_url, chat_page_url, dict_get.
  rewrite Hu. cbn [default py_str]. apply lookup_insert_eq.
Qed.

(** C4. [create_influencer] sets [chat_page_url] to ["/chat/"] followed
    by the username, in the caller's map and in the one insert it sends.
    Against the in-memory backend the row created holds that path, and
    after any [update_influencer] whose map names neither
    [chat_page_url] nor [id], one that changes the username included,
    the stored row still holds the path computed at creation.  No
    [update_influencer] call changes a [chat_page_url] unless its map
    names the column. *)
Theorem chat_page_url_fixed_at_creation :
  (∀ (B : Type) (backend : Backend B) (σ : world B) (l : loc) (d : row) (u : string),
     dicts σ !! l = Some d →
     (∀ f, f ∈ required_fields → is_Some (d !! f)) →
     d !! "username" = Some (VStr u) →
     sent (create_influencer l) σ
     = [Table (Insert influencers (<["chat_page_url" := VStr ("/chat/" ++ u)]> d))] ∧
     dicts (after (create_influencer l) σ) !! l
     = Some (<["chat_page_url" := VStr ("/chat/" ++ u)]> d)) ∧
  (∀ (σ : world Mem.db) (l : loc) (d r : row) (i u : string),
     dicts σ !! l = Some d →
     d !! "id" = Some (VStr i) →
     d !! "username" = Some (VStr u) →
     result (create_influencer l) σ = Return (Some r) →
     let σ1 := after (create_influencer l) σ in
     r !! "chat_page_url" = Some (VStr ("/chat/" ++ u)) ∧
     Mem.influencer_row i (ext σ1) = Some r ∧
     (∀ (l2 : loc) (upd : row),
        dicts σ1 !! l2 = Some upd →
        upd !! "chat_page_url" = None →
        upd !! "id" = None →
        let σ2 := after (update_influencer i l2) σ1 in
        ∃ r2, Mem.influencer_row i (ext σ2) = Some r2
              ∧ r2 !! "chat_page_url" = Some (VStr ("/chat/" ++ u))
              ∧ (result (update_influencer i l2) σ1 = Return true →
                 r2 = stamped upd ∪ r))) ∧
  (∀ (σ : world Mem.db) (i : string) (l : loc) (upd : row),
     dicts σ !! l = Some upd →
     upd !! "chat_page_url" = None →
     Mem.chat_page_urls (ext (after (update_influencer i l) σ))
     = Mem.chat_page_urls (ext σ)).
Proof.
  split; [|split].
  - intros B backend σ l d u Hl Hall Hu.
    assert (Hd : dicts σ !!! l = d) by (by rewrite lookup_total_alt, Hl).
    assert (Hw : with_chat_page_url d = <["chat_page_url" := VStr ("/chat/" ++ u)]> d).
    { unfold with_chat_page_url, chat_page_url, dict_get. by rewrite Hu. }
    apply has_required_fields_spec in Hall.
    split.
    + apply sent_app. unfold after. rewrite create_influencer_run. cbv zeta.
      rewrite Hd, Hall, Hw. by destruct (table_execute _ _) as [[?|?] ?].
    + unfold after. rewrite create_influencer_run. cbv zeta.
      rewrite Hd, Hall, Hw.
      destruct (table_execute _ _) as [[?|?] ?]; cbn [snd dicts];
        apply lookup_insert_eq.
  - intros σ l d r i u Hl Hid Hu Hres σ1.
    destruct (create_influencer_mem σ l d r Hl Hres) as (Hr & Hrows & Hfresh).
    fold σ1 in Hrows.
    assert (Hurl : r !! "chat_page_url" = Some (VStr ("/chat/" ++ u))).
    { rewrite Hr. apply lookup_union_Some_l. by apply with_chat_page_url_lookup. }
    assert (Hrid : r !! "id" = Some (VStr i)).
    { rewrite Hr. apply lookup_union_Some_l. unfold with_chat_page_url.
      by rewrite lookup_insert_ne. }
    assert (Hrow1 : Mem.influencer_row i (ext σ1) = Some r).
    { unfold Mem.influencer_row. rewrite Hrows.
      by rewrite (filter_matches_fresh i r _ Hrid Hfresh). }
    split; [done|]. split; [done|].
    intros l2 upd Hl2 Hnourl Hnoid σ2.
    destruct (update_influencer_mem σ1 i l2 upd Hl2) as [[Hres2 Hrows2]|[Hres2 Hrows2]];
      fold σ2 in Hrows2.
    + exists (stamped upd ∪ r).
      assert (Hsid : stamped upd !! "id" = None)
        by (by rewrite stamped_lookup_ne).
      rewrite (influencer_row_updated _ _ _ _ Hsid Hrows2), Hrow1.
      split; [done|]. split; [|done].
      rewrite lookup_union_r; [done|]. by rewrite stamped_lookup_ne.
    + exists r. rewrite (influencer_row_same i _ _ Hrows2).
      split; [done|]. split; [done|]. congruence.
  - intros σ i l upd Hl Hnourl. unfold Mem.chat_page_urls.
    destruct (update_influencer_mem σ i l upd Hl) as [[_ Hrows]|[_ Hrows]];
      rewrite Hrows; [|done].
    rewrite <- list_fmap_compose. apply list_fmap_ext. intros _ r _.
    cbn [compose]. apply apply_update_lookup. by rewrite stamped_lookup_ne.
Qed.

(** ** Instances *)




Lemma update_influencer_stamps_caller_map_witness :
  dicts (after (update_influencer "i1" 0) (world_rename [])) !! 0
  = Some (<["updated_at" := VStr "now()"]> rename).
Proof.
  refine (proj1 (update_influencer_stamps_caller_map "i1" 0 rename
                   (world_rename []) _ _)).
  - reflexivity.
  - apply singleton_row_nonempty.
Defined.

Lemma update_influencer_reports_success_witness :
  result (update_influencer "nobody" 0) (world_rename []) = Return true.
Proof.
  refine (proj1 (proj2 update_influencer_reports_success
                   (world_rename []) "nobody" 0 rename _ _ _ _ _)).
  - reflexivity.
  - apply singleton_row_nonempty.
  - reflexivity.
  - reflexivity.
  - vm_compute; reflexivity.
Defined.

Lemma get_original_asset_without_path_witness :
  result (get_original_asset "i1") (world_alice []) = Return None.
Proof.
  refine (proj1 (proj2 get_original_asset_without_path (world_alice []) "i1" _)).
  right. exists alice_row. split; reflexivity.
Defined.

Lemma chat_page_url_fixed_at_creation_witness :
  let σ1 := after (create_influencer 0) (world_new []) in
  let σ2 := after (update_influencer "i1" 1) σ1 in
  ∃ r2, Mem.influencer_row "i1" (ext σ2) = Some r2
        ∧ r2 !! "chat_page_url" = Some (VStr "/chat/alice")
        ∧ (result (update_influencer "i1" 1) σ1 = Return true →
           r2 = stamped rename ∪ alice_row).
Proof.
  refine (proj2 (proj2 (proj1 (proj2 chat_page_url_fixed_at_creation)
            (world_new []) 0 alice alice_row "i1" "alice" _ _ _ _)) 1 rename _ _ _).
  - reflexivity.
  - reflexivity.
  - reflexivity.
  - reflexivity.
  - reflexivity.
  - reflexivity.
  - reflexivity.
Defined.

(** The renaming run, evaluated: the update is applied, the username is
    the new one and the chat page path is still the one of the old
    username. *)
Example chat_page_url_after_rename :
  let σ1 := after (create_influencer 0) (world_new []) in
  let σ2 := after (update_influencer "i1" 1) σ1 in
  let stored k := from_option (λ r, dict_get r k) VNone
                    (Mem.influencer_row "i1" (ext σ2)) in
  result (update_influencer "i1" 1) σ1 = Return true ∧
  stored "username" = VStr "bob" ∧
  stored "chat_page_url" = VStr "/chat/alice".
Proof. cbv zeta. repeat split; vm_compute; reflexivity. Qed.

(** * Further properties *)

(** ** What each method sends *)

Section footprint.
Context {B : Type} `{!Backend B}.

Lemma create_influencer_sent (l : loc) (σ : world B) :
  sent (create_influencer l) σ = [] ∨
  sent (create_influencer l) σ
  = [Table (Insert influencers (with_chat_page_url (dicts σ !!! l)))].
Proof.
  destruct (has_required_fields (dicts σ !!! l)) eqn:Hreq.
  - right. apply sent_app. unfold after. rewrite create_influencer_run. cbv zeta.
    rewrite Hreq. by destruct (table_execute _ _) as [[?|?] ?].
  - left. apply sent_nil. unfold after. rewrite create_influencer_run. cbv zeta.
    by rewrite Hreq.
Qed.

Lemma get_influencer_by_sent (col v : string) (σ : world B) :
  sent (get_influencer_by col v) σ = [Table (Select influencers (Some (col, v)))].
Proof.
  apply sent_app. unfold after. rewrite get_influencer_by_run. cbv zeta.
  by destruct (table_execute _ _) as [[?|?] ?].
Qed.

Lemma get_influencer_by_dicts (col v : string) (σ : world B) :
  dicts (after (get_influencer_by col v) σ) = dicts σ.
Proof.
  unfold after. rewrite get_influencer_by_run. cbv zeta.
  by destruct (table_execute _ _) as [[?|?] ?].
Qed.

Lemma update_influencer_sent (i : string) (l : loc) (σ : world B) :
  sent (update_influencer i l) σ = [] ∨
  sent (update_influencer i l) σ
  = [Table (Update influencers (stamped (dicts σ !!! l)) "id" i)].
Proof.
  destruct (dict_truthy (dicts σ !!! l)) eqn:Ht.
  - right. apply sent_app. unfold after. rewrite update_influencer_run. cbv zeta.
    rewrite Ht. by destruct (table_execute _ _) as [[?|?] ?].
  - left. apply sent_nil. unfold after. rewrite update_influencer_run. cbv zeta.
    by rewrite Ht.
Qed.

(** What [delete_influencer] does, in full. *)
Lemma delete_influencer_run (i : string) (σ : world B) :
  delete_influencer i σ =
  let q := Delete influencers "id" i in
  let '(o, b) := table_execute q (ext σ) in
  let σ1 := World (dicts σ) (log σ) (trace σ ++ [Table q]) b in
  match o with
  | Return _ => (Return true, σ1)
  | Raise e =>
      (Return false,
       World (dicts σ1) (log σ1 ++ ["Error deleting influencer: " ++ exn_str e])
             (trace σ1) (ext σ1))
  end.
Proof.
  unfold delete_influencer. unfold_monad. cbn [fst snd ext log trace dicts].
  by destruct (table_execute _ _) as [[?|?] ?].
Qed.

(** What the two listings do, in full. *)
Lemma listing_run (q : query) (msg : string) (σ : world B) :
  try_except (execute q) (λ e, logger_error (msg ++ exn_str e);; mret []) σ =
  let '(o, b) := table_execute q (ext σ) in
  let σ1 := World (dicts σ) (log σ) (trace σ ++ [Table q]) b in
  match o with
  | Return data => (Return data, σ1)
  | Raise e =>
      (Return [],
       World (dicts σ1) (log σ1 ++ [msg ++ exn_str e]) (trace σ1) (ext σ1))
  end.
Proof.
  unfold_monad. cbn [fst snd ext log trace dicts].
  by destruct (table_execute _ _) as [[?|?] ?].
Qed.

(** What [get_primary_affiliate_id] does, in full. *)
Lemma get_primary_affiliate_id_run (i : string) (σ : world B) :
  get_primary_affiliate_id i σ =
  let q := Select influencers (Some ("id", i)) in
  let '(o, b) := table_execute q (ext σ) in
  let σ1 := World (dicts σ) (log σ) (trace σ ++ [Table q]) b in
  match o with
  | Return data =>
      (Return (match first_or_none data with
               | Some r => if dict_truthy r then dict_get r "affiliate_id" else VNone
               | None => VNone
               end), σ1)
  | Raise e =>
      (Return VNone,
       World (dicts σ1) (log σ1 ++ ["Error getting influencer: " ++ exn_str e])
             (trace σ1) (ext σ1))
  end.
Proof.
  unfold get_primary_affiliate_id, get_influencer.
  unfold try_except at 1. unfold mbind, M_bind. unfold bind at 1.
  rewrite get_influencer_by_run. cbv zeta.
  destruct (table_execute _ _) as [[data|e] b]; [|done].
  destruct (first_or_none data) as [r|]; [|done].
  by destruct (dict_truthy r).
Qed.

(** What [log_chat_interaction] does, in full. *)
Lemma log_chat_interaction_run (i u r : string) (p : bool) (σ : world B) :
  log_chat_interaction i u r p σ =
  let '(uid, b0) := uuid4 (ext σ) in
  let q := Insert chat_interactions (interaction_data uid i u r p) in
  let '(o, b) := table_execute q b0 in
  let σ1 := World (dicts σ) (log σ) (trace σ ++ [Table q]) b in
  match o with
  | Return data => (Return (first_or_none data), σ1)
  | Raise e =>
      (Return None,
       World (dicts σ1) (log σ1 ++ ["Error logging chat interaction: " ++ exn_str e])
             (trace σ1) (ext σ1))
  end.
Proof.
  unfold log_chat_interaction. unfold_monad. cbn [fst snd ext log trace dicts].
  destruct (uuid4 (ext σ)) as [uid b0]. cbn [fst snd ext log trace dicts].
  by destruct (table_execute _ _) as [[?|?] ?].
Qed.

End footprint.

(** ** Frames *)

Section frame_proofs.
Context {B : Type} `{!Backend B}.

Lemma listing_sent (q : query) (msg : string) (σ : world B) :
  sent (try_except (execute q) (λ e, logger_error (msg ++ exn_str e);; mret [])) σ
  = [Table q] ∧
  dicts (after (try_except (execute q)
                  (λ e, logger_error (msg ++ exn_str e);; mret [])) σ) = dicts σ.
Proof.
  split; [apply sent_app|]; unfold after; rewrite listing_run; cbv zeta;
    by destruct (table_execute _ _) as [[?|?] ?].
Qed.

Lemma get_original_asset_sent (i : string) (σ : world B) :
  (sent (get_original_asset i) σ = [Table (Select influencers (Some ("id", i)))] ∨
   ∃ path, sent (get_original_asset i) σ
           = [Table (Select influencers (Some ("id", i))); Download bucket_name path]) ∧
  dicts (after (get_original_asset i) σ) = dicts σ.
Proof.
  unfold sent, after. rewrite get_original_asset_run. cbv zeta.
  destruct (table_execute _ _) as [[rows|e] b1].
  2:{ cbn [snd trace dicts]. rewrite drop_app_length. by split; [left|]. }
  destruct (first_or_none rows) as [r|].
  2:{ cbn [snd trace dicts]. rewrite drop_app_length. by split; [left|]. }
  destruct (negb (dict_truthy r) || negb (truthy (dict_get r "original_asset_path"))).
  { cbn [snd trace dicts]. rewrite drop_app_length. by split; [left|]. }
  destruct (storage_download _ _ _) as [[c|e] b2];
    cbn [snd trace dicts]; rewrite <- (assoc_L app), drop_app_length;
    (split; [right; by eexists|done]).
Qed.

Lemma get_primary_affiliate_id_sent (i : string) (σ : world B) :
  sent (get_primary_affiliate_id i) σ = [Table (Select influencers (Some ("id", i)))] ∧
  dicts (after (get_primary_affiliate_id i) σ) = dicts σ.
Proof.
  split; [apply sent_app|]; unfold after; rewrite get_primary_affiliate_id_run;
    cbv zeta; by destruct (table_execute _ _) as [[?|?] ?].
Qed.

(** X1. The seven lookups and listings only read, on every backend.
    Each of them sends exactly one request, a select on the table and
    the column it looks up; [get_original_asset] sends that select and
    then at most one download.  None of them touches the caller's
    dictionaries. *)
Theorem lookups_only_read :
  (∀ u, selects_once (get_influencer_by_username (B:=B) u)
          (Select influencers (Some ("username", u)))) ∧
  (∀ e, selects_once (get_influencer_by_email (B:=B) e)
          (Select influencers (Some ("email", e)))) ∧
  (∀ i, selects_once (get_influencer (B:=B) i)
          (Select influencers (Some ("id", i)))) ∧
  selects_once (get_all_influencers (B:=B)) (Select influencers None) ∧
  (∀ i, selects_then_downloads (get_original_asset (B:=B) i)
          (Select influencers (Some ("id", i)))) ∧
  (∀ i, selects_once (get_affiliate_links (B:=B) i)
          (Select affiliate_links (Some ("influencer_id", i)))) ∧
  (∀ i, selects_once (get_primary_affiliate_id (B:=B) i)
          (Select influencers (Some ("id", i)))).
Proof.
  repeat split.
  - apply get_influencer_by_sent.
  - apply get_influencer_by_dicts.
  - apply get_influencer_by_sent.
  - apply get_influencer_by_dicts.
  - apply get_influencer_by_sent.
  - apply get_influencer_by_dicts.
  - apply (listing_sent _ "Error getting all influencers: " σ).
  - apply (listing_sent _ "Error getting all influencers: " σ).
  - apply get_original_asset_sent.
  - apply get_original_asset_sent.
  - apply (listing_sent _ "Error getting affiliate links: " σ).
  - apply (listing_sent _ "Error getting affiliate links: " σ).
  - apply get_primary_affiliate_id_sent.
  - apply get_primary_affiliate_id_sent.
Qed.

End frame_proofs.

Section write_proofs.
Context {B : Type} `{!Backend B}.

Lemma store_original_asset_sent (i f : string) (c : bytes) (σ : world B) :
  sent (store_original_asset i c f) σ = [Upload bucket_name (asset_path i f) c] ∨
  sent (store_original_asset i c f) σ
  = [Upload bucket_name (asset_path i f) c;
     Table (Update influencers (asset_update (asset_path i f)) "id" i)].
Proof.
  unfold sent, after. rewrite store_original_asset_run. cbv zeta.
  destruct (storage_upload _ _ _ _) as [[[]|e] b1].
  - destruct (table_execute _ _) as [o2 b2]. cbn [snd trace].
    rewrite <- (assoc_L app), drop_app_length. by right.
  - cbn [snd trace]. rewrite drop_app_length. by left.
Qed.

Lemma add_affiliate_link_sent (i p a : string) (σ : world B) :
  let q1 := Table (Insert affiliate_links (affiliate_data (uuid4 (ext σ)).1 i p a)) in
  let q2 := Table (Select influencers (Some ("id", i))) in
  let q3 := Table (Update influencers (default_update a) "id" i) in
  sent (add_affiliate_link i p a) σ = [q1] ∨
  sent (add_affiliate_link i p a) σ = [q1; q2] ∨
  sent (add_affiliate_link i p a) σ = [q1; q2; q3].
Proof.
  cbv zeta. unfold sent, after. rewrite add_affiliate_link_run.
  destruct (uuid4 (ext σ)) as [u b0]. cbv zeta. cbn [fst].
  destruct (table_execute _ b0) as [[data|e1] b1].
  2:{ cbn [snd trace]. rewrite drop_app_length. by left. }
  destruct (table_execute _ b1) as [[rows|e2] b2].
  2:{ cbn [snd trace]. rewrite drop_app_length. right. by left. }
  destruct (first_or_none rows) as [r|].
  2:{ cbn [snd trace]. rewrite drop_app_length. right. by left. }
  destruct (truthy (dict_get r "affiliate_id")).
  { cbn [snd trace]. rewrite drop_app_length. right. by left. }
  destruct (table_execute _ b2) as [o3 b3]. cbn [snd trace].
  rewrite <- (assoc_L app), drop_app_length. right. by right.
Qed.

Lemma delete_influencer_sent (i : string) (σ : world B) :
  sent (delete_influencer i) σ = [Table (Delete influencers "id" i)].
Proof.
  apply sent_app. unfold after. rewrite delete_influencer_run. cbv zeta.
  by destruct (table_execute _ _) as [[?|?] ?].
Qed.

Lemma log_chat_interaction_sent (i u r : string) (p : bool) (σ : world B) :
  sent (log_chat_interaction i u r p) σ
  = [Table (Insert chat_interactions (interaction_data (uuid4 (ext σ)).1 i u r p))].
Proof.
  apply sent_app. unfold after. rewrite log_chat_interaction_run.
  destruct (uuid4 (ext σ)) as [uid b0]. cbv zeta. cbn [fst].
  by destruct (table_execute _ _) as [[?|?] ?].
Qed.

(** X2. No method ever sends an update or a delete for
    [affiliate_links] or [chat_interactions], on any backend: from this
    layer the two dependent tables only receive inserts and selects, and
    their rows go away only through the cascade of the backend. *)
Theorem dependent_tables_append_only :
  (∀ l, keeps_dependents (create_influencer (B:=B) l)) ∧
  (∀ u, keeps_dependents (get_influencer_by_username (B:=B) u)) ∧
  (∀ e, keeps_dependents (get_influencer_by_email (B:=B) e)) ∧
  (∀ i, keeps_dependents (get_influencer (B:=B) i)) ∧
  (∀ i l, keeps_dependents (update_influencer (B:=B) i l)) ∧
  (∀ i, keeps_dependents (delete_influencer (B:=B) i)) ∧
  keeps_dependents (get_all_influencers (B:=B)) ∧
  (∀ i c f, keeps_dependents (store_original_asset (B:=B) i c f)) ∧
  (∀ i, keeps_dependents (get_original_asset (B:=B) i)) ∧
  (∀ i p a, keeps_dependents (add_affiliate_link (B:=B) i p a)) ∧
  (∀ i, keeps_dependents (get_affiliate_links (B:=B) i)) ∧
  (∀ i, keeps_dependents (get_primary_affiliate_id (B:=B) i)) ∧
  (∀ i u r p, keeps_dependents (log_chat_interaction (B:=B) i u r p)).
Proof.
  repeat split; intros; intros σ.
  - destruct (create_influencer_sent l σ) as [->| ->]; by repeat constructor.
  - unfold get_influencer_by_username. rewrite get_influencer_by_sent.
    by repeat constructor.
  - unfold get_influencer_by_email. rewrite get_influencer_by_sent.
    by repeat constructor.
  - unfold get_influencer. rewrite get_influencer_by_sent. by repeat constructor.
  - destruct (update_influencer_sent i l σ) as [->| ->]; by repeat constructor.
  - rewrite delete_influencer_sent. by repeat constructor.
  - unfold get_all_influencers.
    rewrite (proj1 (listing_sent _ "Error getting all influencers: " σ)).
    by repeat constructor.
  - destruct (store_original_asset_sent i f c σ) as [->| ->]; by repeat constructor.
  - destruct (get_original_asset_sent i σ) as [[->|[path ->]] _];
      by repeat constructor.
  - destruct (add_affiliate_link_sent i p a σ) as [->|[->| ->]];
      by repeat constructor.
  - unfold get_affiliate_links.
    rewrite (proj1 (listing_sent _ "Error getting affiliate links: " σ)).
    by repeat constructor.
  - rewrite (proj1 (get_primary_affiliate_id_sent i σ)). by repeat constructor.
  - rewrite log_chat_interaction_sent. by repeat constructor.
Qed.

(** X3. [update_influencer] returns [False] exactly when the map is
    empty or the backend raises on the update.  With an empty map it
    returns at once: no request, no log line, the map untouched; so a
    [False] alone does not tell a backend failure. *)
Theorem update_influencer_false_iff (i : string) (l : loc) (d : row) (σ : world B) :
  dicts σ !! l = Some d →
  (result (update_influencer i l) σ = Return false ↔
   d = ∅ ∨ table_raises (Update influencers (stamped d) "id" i) (ext σ)) ∧
  (d = ∅ → update_influencer i l σ = (Return false, σ)).
Proof.
  intros Hl.
  assert (Hd : dicts σ !!! l = d) by (by rewrite lookup_total_alt, Hl).
  split.
  - unfold result. rewrite update_influencer_run. cbv zeta. rewrite Hd.
    unfold dict_truthy. destruct (decide (d = ∅)) as [Hemp|Hne].
    + rewrite bool_decide_eq_true_2 by done. cbn [negb fst]. split; [by left|done].
    + rewrite bool_decide_eq_false_2 by done. cbn [negb].
      destruct (table_execute _ _) as [[data|e] b'] eqn:E; cbn [fst].
      * split; [done|]. intros [?|(e & b2 & E2)]; [done|].
        unfold table_raises in *. congruence.
      * split; [|done]. intros _. right. by exists e, b'.
  - intros ->. rewrite update_influencer_run. cbv zeta. rewrite Hd.
    unfold dict_truthy. by rewrite bool_decide_eq_true_2.
Qed.

(** X4. [delete_influencer] sends one delete for the id and returns
    [True] whenever the backend answers it, whatever rows were removed
    and also when none was; it returns [False] exactly when the backend
    raises. *)
Theorem delete_influencer_reports_success (i : string) (σ : world B) :
  sent (delete_influencer i) σ = [Table (Delete influencers "id" i)] ∧
  (result (delete_influencer i) σ = Return true ↔
   table_answers (Delete influencers "id" i) (ext σ)) ∧
  (result (delete_influencer i) σ = Return false ↔
   table_raises (Delete influencers "id" i) (ext σ)).
Proof.
  split; [apply delete_influencer_sent|].
  unfold result, table_answers, table_raises.
  rewrite delete_influencer_run. cbv zeta.
  destruct (table_execute _ _) as [[data|e] b'] eqn:E; cbn [fst].
  - split; split; try done.
    + intros _. by exists data, b'.
    + intros (e & b2 & E2). congruence.
  - split; split; try done.
    + intros (data & b2 & E2). congruence.
    + intros _. by exists e, b'.
Qed.

End write_proofs.

Lemma update_influencer_false_iff_witness :
  update_influencer "i1" 0 world_empty_map = (Return false, world_empty_map).
Proof.
  refine (proj2 (update_influencer_false_iff "i1" 0 ∅ world_empty_map _) _);
    reflexivity.
Defined.

(** ** Deleting against the in-memory backend *)

Lemma filter_all {A} (P : A → Prop) `{!∀ x, Decision (P x)} (l : list A) :
  Forall P l → filter P l = l.
Proof.
  induction 1 as [|x l Hx _ IH]; [done|].
  by rewrite filter_cons, decide_True, IH.
Qed.

Lemma filter_none {A} (P : A → Prop) `{!∀ x, Decision (P x)} (l : list A) :
  filter P l = [] → Forall (λ x, ¬ P x) l.
Proof.
  induction l as [|x l IH]; [constructor|].
  rewrite filter_cons. destruct (decide (P x)); [done|].
  intros Hl. constructor; [done|by apply IH].
Qed.

Lemma filter_excluded {A} (P : A → Prop) `{!∀ x, Decision (P x)} (l : list A) :
  filter P (filter (λ x, ¬ P x) l) = [].
Proof.
  induction l as [|x l IH]; [done|].
  rewrite (filter_cons (λ x, ¬ P x)). destruct (decide (¬ P x)) as [Hx|Hx]; [|done].
  by rewrite filter_cons, decide_False.
Qed.

Lemma influencer_row_none (i : string) (d : Mem.db) :
  Mem.influencer_row i d = None →
  filter (Mem.matches "id" i) (Mem.rows_influencers d) = [].
Proof. unfold Mem.influencer_row. by destruct (filter _ _). Qed.

(** The rows the cascade removes are those that reference the id. *)
Lemma orphaned_iff (i : string) (gone : list row) (r : row) :
  gone ≠ [] →
  Forall (Mem.matches "id" i) gone →
  Mem.orphaned gone r ↔ Mem.matches "influencer_id" i r.
Proof.
  intros Hne Hall. unfold Mem.orphaned, Mem.matches. split.
  - intros Hex. apply Exists_exists in Hex as (p & Hp & Hr).
    rewrite Forall_forall in Hall. rewrite Hr. by apply Hall.
  - intros Hr. destruct gone as [|p gone]; [done|].
    apply Exists_cons_hd. apply Forall_cons in Hall as [Hp _].
    unfold Mem.matches in Hp. congruence.
Qed.

Lemma filter_matches_Forall (col v : string) (rs : list row) :
  Forall (Mem.matches col v) (filter (Mem.matches col v) rs).
Proof. apply Forall_forall. intros r Hr. by apply list_elem_of_filter in Hr as [? _]. Qed.

Lemma mem_delete_inv (t : table) (col v : string) (d d' : Mem.db)
    (o : outcome (list row)) :
  table_execute (Delete t col v) d = (o, d') →
  (Mem.faulty d = true ∧ (∃ e, o = Raise e) ∧ d' = Mem.tick d) ∨
  (Mem.faulty d = false ∧ (∃ gone, o = Return gone)
   ∧ d' = (Mem.delete_rows t col v (Mem.tick d)).2).
Proof.
  rewrite mem_table_execute. unfold Mem.run_query.
  destruct (Mem.faulty d).
  - intros [= <- <-]. left. eauto.
  - destruct (Mem.delete_rows t col v (Mem.tick d)) as [gone d1].
    intros [= <- <-]. right. eauto.
Qed.

(** The store after the delete of an influencer id. *)
Lemma mem_delete_influencer_rows (i : string) (d : Mem.db) :
  let d' := (Mem.delete_rows influencers "id" i (Mem.tick d)).2 in
  let gone := filter (Mem.matches "id" i) (Mem.rows_influencers d) in
  Mem.rows_influencers d'
  = filter (λ r, ¬ Mem.matches "id" i r) (Mem.rows_influencers d) ∧
  Mem.rows_affiliate_links d'
  = filter (λ r, ¬ Mem.orphaned gone r) (Mem.rows_affiliate_links d) ∧
  Mem.rows_chat_interactions d'
  = filter (λ r, ¬ Mem.orphaned gone r) (Mem.rows_chat_interactions d) ∧
  Mem.objects d' = Mem.objects d.
Proof. done. Qed.

Lemma mem_faults_delete (t : table) (col v : string) (d : Mem.db) :
  Mem.faults (Mem.delete_rows t col v d).2 = Mem.faults d.
Proof. by destruct t. Qed.

Lemma get_influencer_healthy (i : string) (σ : world Mem.db) :
  Mem.faulty (ext σ) = false →
  result (get_influencer i) σ = Return (Mem.influencer_row i (ext σ)).
Proof.
  intros Hf. rewrite get_influencer_reported, mem_reported_influencer. by rewrite Hf.
Qed.

Lemma get_affiliate_links_healthy (i : string) (σ : world Mem.db) :
  Mem.faulty (ext σ) = false →
  result (get_affiliate_links i) σ
  = Return (filter (Mem.matches "influencer_id" i) (Mem.rows_affiliate_links (ext σ))).
Proof.
  intros Hf. unfold result, get_affiliate_links. rewrite listing_run. cbv zeta.
  rewrite mem_table_execute, Hf. unfold Mem.run_query. by rewrite mem_rows_tick.
Qed.

Lemma get_primary_affiliate_id_healthy (i : string) (σ : world Mem.db) :
  Mem.faulty (ext σ) = false →
  result (get_primary_affiliate_id i) σ
  = Return (match Mem.influencer_row i (ext σ) with
            | Some r => if dict_truthy r then dict_get r "affiliate_id" else VNone
            | None => VNone
            end).
Proof.
  intros Hf. unfold result. rewrite get_primary_affiliate_id_run. cbv zeta.
  rewrite mem_table_execute, Hf. unfold Mem.run_query. by rewrite mem_rows_tick.
Qed.

(** X5. Against the in-memory backend, deleting an id that no
    influencer has is reported as success and changes nothing stored. *)
Theorem delete_unknown_influencer (σ : world Mem.db) (i : string) :
  Mem.influencer_row i (ext σ) = None →
  Mem.faulty (ext σ) = false →
  result (delete_influencer i) σ = Return true ∧
  Mem.stored (ext (after (delete_influencer i) σ)) = Mem.stored (ext σ).
Proof.
  intros Hrow Hf. unfold result, after. rewrite delete_influencer_run. cbv zeta.
  destruct (table_execute _ _) as [o d'] eqn:E.
  apply mem_delete_inv in E as [(Hf' & _)|(_ & (gone & ->) & ->)]; [congruence|].
  cbn [fst snd ext]. split; [done|].
  destruct (mem_delete_influencer_rows i (ext σ)) as (Hinf & Hlinks & Hchats & Hobj).
  cbv zeta in Hinf, Hlinks, Hchats, Hobj.
  apply influencer_row_none in Hrow. rewrite Hrow in Hlinks, Hchats.
  unfold Mem.stored. rewrite Hinf, Hlinks, Hchats, Hobj.
  rewrite (filter_all _ _ (filter_none _ _ Hrow)).
  rewrite !filter_all; [done| |].
  - apply Forall_forall. intros r _ Hex. by apply Exists_nil in Hex.
  - apply Forall_forall. intros r _ Hex. by apply Exists_nil in Hex.
Qed.

(** X6. Against the in-memory backend with no fault scheduled, deleting
    a stored influencer returns [True]; afterwards the lookup by id
    returns [None], the influencer has no affiliate links and no primary
    affiliate id, and what is left of the three tables is exactly the
    rows that do not carry the id: the foreign keys cascade. *)
Theorem delete_influencer_cascades (σ : world Mem.db) (i : string) (r : row) :
  Mem.faults (ext σ) = [] →
  Mem.influencer_row i (ext σ) = Some r →
  let σ' := after (delete_influencer i) σ in
  result (delete_influencer i) σ = Return true ∧
  result (get_influencer i) σ' = Return None ∧
  result (get_affiliate_links i) σ' = Return [] ∧
  result (get_primary_affiliate_id i) σ' = Return VNone ∧
  Mem.rows_influencers (ext σ')
  = filter (λ r, ¬ Mem.matches "id" i r) (Mem.rows_influencers (ext σ)) ∧
  Mem.rows_affiliate_links (ext σ')
  = filter (λ r, ¬ Mem.matches "influencer_id" i r) (Mem.rows_affiliate_links (ext σ)) ∧
  Mem.rows_chat_interactions (ext σ')
  = filter (λ r, ¬ Mem.matches "influencer_id" i r)
      (Mem.rows_chat_interactions (ext σ)).
Proof.
  intros Hfaults Hrow σ'.
  assert (Hres : result (delete_influencer i) σ = Return true
                 ∧ ext σ' = (Mem.delete_rows influencers "id" i (Mem.tick (ext σ))).2).
  { subst σ'. unfold result, after. rewrite delete_influencer_run. cbv zeta.
    destruct (table_execute _ _) as [o d'] eqn:E.
    apply mem_delete_inv in E as [(Hf' & _)|(_ & (gone & ->) & ->)]; [|done].
    rewrite (mem_healthy _ Hfaults) in Hf'. done. }
  destruct Hres as [Hres Hext].
  destruct (mem_delete_influencer_rows i (ext σ)) as (Hinf & Hlinks & Hchats & _).
  cbv zeta in Hinf, Hlinks, Hchats. rewrite <- Hext in Hinf, Hlinks, Hchats.
  assert (Hgone : filter (Mem.matches "id" i) (Mem.rows_influencers (ext σ)) ≠ []).
  { unfold Mem.influencer_row in Hrow. by destruct (filter _ _). }
  assert (Horph : ∀ x : row,
            ¬ Mem.orphaned (filter (Mem.matches "id" i) (Mem.rows_influencers (ext σ))) x
            ↔ ¬ Mem.matches "influencer_id" i x).
  { intros x. by rewrite (orphaned_iff i _ x Hgone (filter_matches_Forall _ _ _)). }
  rewrite (list_filter_iff _ _ _ Horph) in Hlinks.
  rewrite (list_filter_iff _ _ _ Horph) in Hchats.
  assert (Hf' : Mem.faulty (ext σ') = false).
  { apply mem_healthy. rewrite Hext, mem_faults_delete. by apply mem_faults_tick. }
  assert (Hrow' : Mem.influencer_row i (ext σ') = None).
  { unfold Mem.influencer_row. by rewrite Hinf, filter_excluded. }
  split; [done|].
  split; [by rewrite (get_influencer_healthy _ _ Hf'), Hrow'|].
  split; [by rewrite (get_affiliate_links_healthy _ _ Hf'), Hlinks, filter_excluded|].
  split; [by rewrite (get_primary_affiliate_id_healthy _ _ Hf'), Hrow'|].
  done.
Qed.

Lemma delete_unknown_influencer_witness :
  result (delete_influencer "nobody") (world_alice []) = Return true ∧
  Mem.stored (ext (after (delete_influencer "nobody") (world_alice [])))
  = Mem.stored (ext (world_alice [])).
Proof. apply delete_unknown_influencer; reflexivity. Defined.

Lemma delete_influencer_cascades_witness :
  result (get_affiliate_links "i1") (after (delete_influencer "i1") world_linked)
  = Return [].
Proof.
  refine (proj1 (proj2 (proj2 (delete_influencer_cascades world_linked "i1"
                                 (default_update "A" ∪ alice_row) _ _)))).
  - reflexivity.
  - reflexivity.
Defined.

(** The linked store, evaluated: one link before the delete, no row in
    either table after it. *)
Example delete_influencer_cascades_run :
  length (Mem.rows_affiliate_links (ext world_linked)) = 1 ∧
  length (Mem.rows_affiliate_links (ext (after (delete_influencer "i1") world_linked)))
  = 0 ∧
  length (Mem.rows_influencers (ext (after (delete_influencer "i1") world_linked))) = 0.
Proof. repeat split; vm_compute; reflexivity. Qed.

(** ** Creating, then looking up *)

Lemma insert_ok_unique (r : row) (d : Mem.db) (c : string) :
  Mem.insert_ok influencers r d = true →
  c ∈ ["id"; "username"; "email"] →
  Forall (λ r0 : row, r0 !! c ≠ r !! c) (Mem.rows_influencers d).
Proof.
  unfold Mem.insert_ok. intros Hok Hc.
  apply andb_prop in Hok as [Hok _]. apply andb_prop in Hok as [_ Hu].
  unfold Mem.unique_ok, Mem.unique in Hu.
  rewrite forallb_forall in Hu. specialize (Hu c).
  apply Forall_forall. intros r0 Hr0.
  assert (Hcol : forallb (λ r1 : row, bool_decide (r1 !! c ≠ r !! c))
                   (Mem.rows_of influencers d) = true).
  { apply Hu. by apply list_elem_of_In. }
  clear Hu. rewrite forallb_forall in Hcol. specialize (Hcol r0).
  apply bool_decide_eq_true in Hcol; [done|]. by apply list_elem_of_In.
Qed.

Lemma filter_matches_fresh_col (col v : string) (r : row) (rs : list row) :
  r !! col = Some (VStr v) →
  Forall (λ r0 : row, r0 !! col ≠ r !! col) rs →
  filter (Mem.matches col v) (rs ++ [r])%list = [r].
Proof.
  intros Hv Hfresh. rewrite filter_app.
  assert (filter (Mem.matches col v) rs = []) as ->.
  { induction Hfresh as [|r0 rs Hr0 _ IH]; [done|].
    rewrite filter_cons, decide_False; [done|].
    unfold Mem.matches. congruence. }
  rewrite filter_cons, decide_True by done. done.
Qed.

(** A successful [create_influencer], with what the constraints say
    about the rows that were there. *)
Lemma create_influencer_mem_fresh (σ : world Mem.db) (l : loc) (d r : row) :
  dicts σ !! l = Some d →
  result (create_influencer l) σ = Return (Some r) →
  r = with_chat_page_url d ∪ Mem.defaults influencers ∧
  ext (after (create_influencer l) σ)
  = Mem.set_rows influencers (Mem.rows_influencers (ext σ) ++ [r]) (Mem.tick (ext σ)) ∧
  (∀ c, c ∈ ["id"; "username"; "email"] →
        Forall (λ r0 : row, r0 !! c ≠ r !! c) (Mem.rows_influencers (ext σ))).
Proof.
  intros Hl. unfold result, after. rewrite create_influencer_run. cbv zeta.
  assert (Hd : dicts σ !!! l = d) by (by rewrite lookup_total_alt, Hl).
  rewrite Hd. destruct (has_required_fields d); [|done].
  destruct (table_execute _ _) as [o d1] eqn:E.
  apply mem_insert_inv in E as [(-> & _ & Hok & Hd1)|((e & ->) & _ & _)]; [|done].
  cbn [fst snd ext first_or_none head]. intros [= <-].
  pose proof (λ c, insert_ok_unique _ _ c Hok) as Hfresh. clear Hok.
  split; [done|]. split; [done|]. exact Hfresh.
Qed.

Lemma get_influencer_by_healthy (col v : string) (σ : world Mem.db) :
  Mem.faulty (ext σ) = false →
  result (get_influencer_by col v) σ
  = Return (head (filter (Mem.matches col v) (Mem.rows_influencers (ext σ)))).
Proof.
  intros Hf. unfold result. rewrite get_influencer_by_run. cbv zeta.
  rewrite mem_table_execute, Hf. unfold Mem.run_query. by rewrite mem_rows_tick.
Qed.

Lemma created_row_lookup (d : row) (c : string) (x : pyval) :
  c ≠ "chat_page_url" →
  d !! c = Some x →
  (with_chat_page_url d ∪ Mem.defaults influencers) !! c = Some x.
Proof.
  intros Hc Hx. apply lookup_union_Some_l. unfold with_chat_page_url.
  by rewrite lookup_insert_ne.
Qed.

(** X7. Against the in-memory backend with no fault scheduled, a
    [create_influencer] that returns a row can be read back at once: the
    lookups by id, by username and by email each return that same row,
    and [get_all_influencers] returns that row together with the rows
    stored before, in some order. *)
Theorem create_then_lookup (σ : world Mem.db) (l : loc) (d r : row)
    (i u e : string) :
  dicts σ !! l = Some d →
  d !! "id" = Some (VStr i) →
  d !! "username" = Some (VStr u) →
  d !! "email" = Some (VStr e) →
  Mem.faults (ext σ) = [] →
  result (create_influencer l) σ = Return (Some r) →
  let σ1 := after (create_influencer l) σ in
  result (get_influencer i) σ1 = Return (Some r) ∧
  result (get_influencer_by_username u) σ1 = Return (Some r) ∧
  result (get_influencer_by_email e) σ1 = Return (Some r) ∧
  ∃ data, result get_all_influencers σ1 = Return data ∧
          data ≡ₚ r :: Mem.rows_influencers (ext σ).
Proof.
  intros Hl Hi Hu He Hfaults Hres σ1.
  destruct (create_influencer_mem_fresh σ l d r Hl Hres) as (Hr & Hext & Hfresh).
  fold σ1 in Hext.
  assert (Hrows : Mem.rows_influencers (ext σ1)
                  = (Mem.rows_influencers (ext σ) ++ [r])%list).
  { rewrite Hext. apply (mem_rows_set_same influencers). }
  assert (Hf1 : Mem.faulty (ext σ1) = false).
  { apply mem_healthy. rewrite Hext, mem_faults_set_rows. by apply mem_faults_tick. }
  assert (Hlook : ∀ c v, c ∈ ["id"; "username"; "email"] → c ≠ "chat_page_url" →
            d !! c = Some (VStr v) →
            result (get_influencer_by c v) σ1 = Return (Some r)).
  { intros c v Hc Hne Hv. rewrite (get_influencer_by_healthy _ _ _ Hf1), Hrows.
    rewrite (filter_matches_fresh_col c v r); [done| |by apply Hfresh].
    rewrite Hr. by apply created_row_lookup. }
  split; [apply (Hlook "id"); [repeat constructor|done|done]|].
  split; [apply (Hlook "username"); [repeat constructor|done|done]|].
  split; [apply (Hlook "email"); [repeat constructor|done|done]|].
  eexists. split.
  - rewrite get_all_influencers_outcome, mem_select_all, Hf1. reflexivity.
  - change (Mem.rows_of influencers (ext σ1)) with (Mem.rows_influencers (ext σ1)).
    rewrite Hrows. symmetry. apply Permutation_cons_append.
Qed.

(** X8. Against the in-memory backend, [create_influencer] with an id,
    a username or an email that a stored influencer already has returns
    [None] and leaves everything stored as it was: there are never two
    rows with the same value in one of these columns. *)
Theorem create_influencer_duplicate (σ : world Mem.db) (l : loc) (d r0 : row)
    (c : string) :
  dicts σ !! l = Some d →
  c ∈ ["id"; "username"; "email"] →
  r0 ∈ Mem.rows_influencers (ext σ) →
  is_Some (d !! c) →
  r0 !! c = d !! c →
  result (create_influencer l) σ = Return None ∧
  Mem.stored (ext (after (create_influencer l) σ)) = Mem.stored (ext σ).
Proof.
  intros Hl Hc Hr0 [x Hx] Hsame.
  assert (Hne : c ≠ "chat_page_url").
  { intros ->. repeat (apply elem_of_cons in Hc as [Hc|Hc]; [discriminate|]).
    by apply elem_of_nil in Hc. }
  unfold result, after. rewrite create_influencer_run. cbv zeta.
  assert (Hd : dicts σ !!! l = d) by (by rewrite lookup_total_alt, Hl).
  rewrite Hd. destruct (has_required_fields d); [|done].
  destruct (table_execute _ _) as [o d1] eqn:E.
  apply mem_insert_inv in E as [(-> & _ & Hok & Hd1)|((e & ->) & Hst & _)]; [|done].
  exfalso. apply (insert_ok_unique _ _ c) in Hok; [|done].
  rewrite Forall_forall in Hok. apply (Hok r0).
  - change (Mem.rows_influencers (Mem.tick (ext σ))) with (Mem.rows_influencers (ext σ)).
    done.
  - rewrite (created_row_lookup d c x Hne Hx). congruence.
Qed.

Lemma create_then_lookup_witness :
  result (get_influencer_by_username "alice") (after (create_influencer 0) (world_new []))
  = Return (Some alice_row).
Proof.
  refine (proj1 (proj2 (create_then_lookup (world_new []) 0 alice alice_row
                          "i1" "alice" "alice@example.com" _ _ _ _ _ _)));
    reflexivity.
Defined.

Lemma create_influencer_duplicate_witness :
  result (create_influencer 0) world_again = Return None ∧
  Mem.stored (ext (after (create_influencer 0) world_again))
  = Mem.stored (ext world_again).
Proof.
  apply (create_influencer_duplicate world_again 0 alice alice_row "username").
  - reflexivity.
  - repeat constructor.
  - apply elem_of_cons. by left.
  - by exists (VStr "alice").
  - reflexivity.
Defined.

(** ** Affiliate links and chat interactions *)

Lemma stored_link_fields (d : Mem.db) (i p a : string) :
  stored_link d i p a !! "influencer_id" = Some (VStr i) ∧
  stored_link d i p a !! "platform" = Some (VStr p) ∧
  stored_link d i p a !! "affiliate_id" = Some (VStr a).
Proof.
  unfold stored_link. repeat split; apply lookup_union_Some_l; reflexivity.
Qed.

Lemma filter_matches_snoc (col v : string) (r : row) (rs : list row) :
  filter (Mem.matches col v) (rs ++ [r])%list
  = (filter (Mem.matches col v) rs
       ++ if decide (Mem.matches col v r) then [r] else [])%list.
Proof. rewrite filter_app, filter_cons. by destruct (decide _). Qed.

(** A successful [add_affiliate_link] returns the stored link and
    appends it. *)
Lemma add_affiliate_link_appends (σ : world Mem.db) (i p a : string) (link : row) :
  result (add_affiliate_link i p a) σ = Return (Some link) →
  link = stored_link (ext σ) i p a ∧
  Mem.rows_affiliate_links (ext (after (add_affiliate_link i p a) σ))
  = (Mem.rows_affiliate_links (ext σ) ++ [link])%list.
Proof.
  intros Hres.
  destruct (add_affiliate_link_mem i p a σ)
    as [(_ & Hnone & _)|[_ [(Hnone & _)|[(r & Hsome & _ & _ & Hlinks & _)|
        (r & Hsome & _ & _ & Hlinks & _)]]]]; cbv zeta in *.
  - congruence.
  - congruence.
  - assert (link = stored_link (ext σ) i p a) as -> by congruence. done.
  - assert (link = stored_link (ext σ) i p a) as -> by congruence. done.
Qed.

(** X9. Against the in-memory backend, after an [add_affiliate_link]
    that returned its row, [get_affiliate_links] for the influencer
    returns the links it had before together with the new one, in some
    order; the new one carries the given influencer id, platform and
    affiliate id; the listing of every other influencer holds the links
    it held before.  Nothing requires the platform to be new. *)
Theorem add_then_list_links (σ : world Mem.db) (i p a : string) (link : row) :
  result (add_affiliate_link i p a) σ = Return (Some link) →
  Mem.faulty (ext (after (add_affiliate_link i p a) σ)) = false →
  let σ' := after (add_affiliate_link i p a) σ in
  (∃ data, result (get_affiliate_links i) σ' = Return data ∧
           data ≡ₚ link :: filter (Mem.matches "influencer_id" i)
                             (Mem.rows_affiliate_links (ext σ))) ∧
  dict_get link "influencer_id" = VStr i ∧
  dict_get link "platform" = VStr p ∧
  dict_get link "affiliate_id" = VStr a ∧
  (∀ j, j ≠ i →
        ∃ data, result (get_affiliate_links j) σ' = Return data ∧
                data ≡ₚ filter (Mem.matches "influencer_id" j)
                          (Mem.rows_affiliate_links (ext σ))).
Proof.
  intros Hres Hf σ'.
  destruct (add_affiliate_link_appends σ i p a link Hres) as [-> Hlinks].
  fold σ' in Hlinks, Hf.
  destruct (stored_link_fields (ext σ) i p a) as (Hi & Hp & Ha).
  split.
  { eexists. split.
    - rewrite (get_affiliate_links_healthy _ _ Hf), Hlinks, filter_matches_snoc.
      rewrite decide_True by done. reflexivity.
    - symmetry. apply Permutation_cons_append. }
  unfold dict_get. rewrite Hi, Hp, Ha. split; [done|]. split; [done|]. split; [done|].
  intros j Hj. eexists. split; [|reflexivity].
  rewrite (get_affiliate_links_healthy _ _ Hf), Hlinks, filter_matches_snoc.
  rewrite decide_False, app_nil_r; [done|].
  unfold Mem.matches. rewrite Hi. congruence.
Qed.

Lemma insert_ok_parent (t : table) (r : row) (d : Mem.db) :
  Mem.references_influencer t = true →
  Mem.insert_ok t r d = true →
  ∃ p, p ∈ Mem.rows_influencers d ∧ p !! "id" = r !! "influencer_id".
Proof.
  unfold Mem.insert_ok, Mem.foreign_key_ok. intros -> Hok.
  apply andb_prop in Hok as [_ Hfk]. unfold Mem.parent_exists in Hfk.
  apply existsb_exists in Hfk as (p & Hp & Heq).
  exists p. split; [by apply list_elem_of_In|by apply bool_decide_eq_true in Heq].
Qed.

Lemma influencer_row_some (i : string) (d : Mem.db) (p : row) :
  p ∈ Mem.rows_influencers d →
  p !! "id" = Some (VStr i) →
  is_Some (Mem.influencer_row i d).
Proof.
  intros Hp Hid. unfold Mem.influencer_row.
  assert (Hin : p ∈ filter (Mem.matches "id" i) (Mem.rows_influencers d))
    by (by apply list_elem_of_filter).
  destruct (filter _ _) as [|x xs]; [by apply elem_of_nil in Hin|by eexists].
Qed.

(** An insert of a row that references influencer [i] is answered only
    if that influencer is stored. *)
Lemma mem_insert_child_answers (t : table) (r : row) (i : string) (d : Mem.db) :
  Mem.references_influencer t = true →
  r !! "influencer_id" = Some (VStr i) →
  table_answers (Insert t r) d →
  is_Some (Mem.influencer_row i d).
Proof.
  intros Ht Hr (data & d' & E).
  apply mem_insert_inv in E as [(_ & _ & Hok & _)|((e & He) & _)]; [|done].
  apply (insert_ok_parent _ _ _ Ht) in Hok as (p & Hp & Hid).
  apply (influencer_row_some i (Mem.tick d) p Hp).
  rewrite Hid. by apply lookup_union_Some_l.
Qed.

Lemma mem_influencer_row_next_uuid (i : string) (d : Mem.db) :
  Mem.influencer_row i (Mem.next_uuid d).2 = Mem.influencer_row i d.
Proof. reflexivity. Qed.

(** X10. Against the in-memory backend, a link or a chat interaction
    for an id that no influencer has is refused (foreign key): both
    [add_affiliate_link] and [log_chat_interaction] return [None] and
    nothing stored changes. *)
Theorem unknown_influencer_refused (σ : world Mem.db) (i : string) :
  Mem.influencer_row i (ext σ) = None →
  (∀ p a,
     result (add_affiliate_link i p a) σ = Return None ∧
     Mem.stored (ext (after (add_affiliate_link i p a) σ)) = Mem.stored (ext σ)) ∧
  (∀ u r pr,
     result (log_chat_interaction i u r pr) σ = Return None ∧
     Mem.stored (ext (after (log_chat_interaction i u r pr) σ)) = Mem.stored (ext σ)).
Proof.
  intros Hrow. split.
  - intros p a.
    destruct (add_affiliate_link_mem i p a σ) as [(_ & Hnone & Hst & _)|[Hans _]];
      cbv zeta in *; [done|].
    apply (mem_insert_child_answers _ _ i) in Hans; [|done|reflexivity].
    rewrite mem_influencer_row_next_uuid, Hrow in Hans. by destruct Hans.
  - intros u r pr. unfold result, after. rewrite log_chat_interaction_run.
    change (uuid4 (ext σ)) with (Mem.next_uuid (ext σ)).
    destruct (Mem.next_uuid (ext σ)) as [uid d0] eqn:Hu. cbv zeta.
    assert (Hrow0 : Mem.influencer_row i d0 = None).
    { rewrite <- Hrow, <- (mem_influencer_row_next_uuid i (ext σ)). by rewrite Hu. }
    assert (Hst0 : Mem.stored d0 = Mem.stored (ext σ)).
    { rewrite <- (mem_stored_next_uuid (ext σ)). by rewrite Hu. }
    destruct (table_execute _ d0) as [[data|e] d1] eqn:E.
    + assert (Hans : table_answers
                       (Insert chat_interactions (interaction_data uid i u r pr)) d0)
        by (by exists data, d1).
      apply (mem_insert_child_answers _ _ i) in Hans; [|done|reflexivity].
      rewrite Hrow0 in Hans. by destruct Hans.
    + apply mem_insert_inv in E as [(Habs & _)|(_ & Hst & _)]; [done|].
      cbn [fst snd ext]. split; [done|congruence].
Qed.

Lemma add_then_list_links_witness :
  ∃ data,
    result (get_affiliate_links "i1")
      (after (add_affiliate_link "i1" "amazon" "A") (world_alice []))
    = Return data ∧
    data ≡ₚ stored_link (ext (world_alice [])) "i1" "amazon" "A"
            :: filter (Mem.matches "influencer_id" "i1")
                 (Mem.rows_affiliate_links (ext (world_alice []))).
Proof.
  refine (proj1 (add_then_list_links (world_alice []) "i1" "amazon" "A"
                   (stored_link (ext (world_alice [])) "i1" "amazon" "A") _ _));
    reflexivity.
Defined.

Lemma unknown_influencer_refused_witness :
  result (add_affiliate_link "ghost" "amazon" "A") (world_alice []) = Return None ∧
  Mem.stored (ext (after (add_affiliate_link "ghost" "amazon" "A") (world_alice [])))
  = Mem.stored (ext (world_alice [])).
Proof.
  refine (proj1 (unknown_influencer_refused (world_alice []) "ghost" _) "amazon" "A").
  reflexivity.
Defined.

(** A successful [log_chat_interaction]: the row returned is the
    interaction with the column defaults, appended to its table. *)
Lemma log_chat_interaction_mem (σ : world Mem.db) (i u r : string) (pr : bool)
    (row : row) :
  result (log_chat_interaction i u r pr) σ = Return (Some row) →
  let d := ext σ in
  let d' := ext (after (log_chat_interaction i u r pr) σ) in
  row = interaction_data (Mem.next_uuid d).1 i u r pr ∪ Mem.defaults chat_interactions ∧
  d' = Mem.set_rows chat_interactions (Mem.rows_chat_interactions d ++ [row])
         (Mem.tick (Mem.next_uuid d).2) ∧
  is_Some (Mem.influencer_row i d).
Proof.
  intros Hres d d'. subst d d'. revert Hres.
  unfold result, after. rewrite log_chat_interaction_run.
  change (uuid4 (ext σ)) with (Mem.next_uuid (ext σ)).
  destruct (Mem.next_uuid (ext σ)) as [uid d0] eqn:Hu. cbv zeta. cbn [fst snd].
  destruct (table_execute _ d0) as [o d1] eqn:E.
  assert (Hrow : ∀ data, o = Return data → is_Some (Mem.influencer_row i (ext σ))).
  { intros data ->.
    rewrite <- (mem_influencer_row_next_uuid i (ext σ)), Hu.
    apply (mem_insert_child_answers chat_interactions
             (interaction_data uid i u r pr)); [done|reflexivity|by exists data, d1]. }
  apply mem_insert_inv in E as [(-> & _ & _ & Hd1)|((e & ->) & _ & _)]; [|done].
  cbn [fst snd ext first_or_none head]. intros [= <-].
  split; [done|]. split; [|by eapply Hrow].
  assert (Hrows0 : Mem.rows_of chat_interactions d0
                   = Mem.rows_chat_interactions (ext σ)).
  { change (Mem.rows_chat_interactions (ext σ))
      with (Mem.rows_of chat_interactions (ext σ)).
    rewrite <- (mem_rows_next_uuid chat_interactions (ext σ)). by rewrite Hu. }
  by rewrite Hd1, Hrows0.
Qed.

(** X11. Against the in-memory backend, a [log_chat_interaction] that
    returns a row has appended exactly that row to the chat table: it
    carries the influencer id, both messages and the flag as given, the
    influencer is a stored one, and the influencers, the links and the
    stored objects are as before. *)
Theorem log_chat_interaction_appends (σ : world Mem.db) (i u r : string) (pr : bool)
    (row : row) :
  result (log_chat_interaction i u r pr) σ = Return (Some row) →
  let d := ext σ in
  let d' := ext (after (log_chat_interaction i u r pr) σ) in
  dict_get row "influencer_id" = VStr i ∧
  dict_get row "user_message" = VStr u ∧
  dict_get row "bot_response" = VStr r ∧
  dict_get row "product_recommendations" = VBool pr ∧
  Mem.rows_chat_interactions d' = (Mem.rows_chat_interactions d ++ [row])%list ∧
  Mem.rows_influencers d' = Mem.rows_influencers d ∧
  Mem.rows_affiliate_links d' = Mem.rows_affiliate_links d ∧
  Mem.objects d' = Mem.objects d ∧
  is_Some (Mem.influencer_row i d).
Proof.
  intros Hres d d'.
  destruct (log_chat_interaction_mem σ i u r pr row Hres) as (Hrow & Hd' & Hparent).
  fold d d' in Hrow, Hd', Hparent.
  assert (Hfield : ∀ k x,
            interaction_data (Mem.next_uuid d).1 i u r pr !! k = Some x →
            dict_get row k = x).
  { intros k x Hk. unfold dict_get. rewrite Hrow.
    by rewrite (lookup_union_Some_l _ _ _ x Hk). }
  split; [by apply Hfield|]. split; [by apply Hfield|].
  split; [by apply Hfield|]. split; [by apply Hfield|].
  rewrite Hd'. done.
Qed.

Lemma log_chat_interaction_appends_witness :
  Mem.rows_chat_interactions
    (ext (after (log_chat_interaction "i1" "hello" "hi there" true) (world_alice [])))
  = (Mem.rows_chat_interactions (ext (world_alice []))
       ++ [interaction_data "uuid-0" "i1" "hello" "hi there" true
             ∪ Mem.defaults chat_interactions])%list.
Proof.
  refine (proj1 (proj2 (proj2 (proj2 (proj2
            (log_chat_interaction_appends (world_alice []) "i1" "hello" "hi there" true
               (interaction_data "uuid-0" "i1" "hello" "hi there" true
                  ∪ Mem.defaults chat_interactions) _)))))).
  reflexivity.
Defined.

(** X12. Against the in-memory backend, after the first link of an
    influencer without a default (the call returning its row and
    logging nothing), [get_primary_affiliate_id] returns that affiliate
    id. *)
Theorem primary_after_first_link (σ : world Mem.db) (i p a : string) :
  truthy (Mem.default_affiliate i (ext σ)) = false →
  succeeded (result (add_affiliate_link i p a) σ) →
  logged (add_affiliate_link i p a) σ = [] →
  Mem.faulty (ext (after (add_affiliate_link i p a) σ)) = false →
  result (get_primary_affiliate_id i) (after (add_affiliate_link i p a) σ)
  = Return (VStr a).
Proof.
  intros Hunset [link Hres] Hlog Hf.
  rewrite (get_primary_affiliate_id_healthy _ _ Hf).
  destruct (add_affiliate_link_mem i p a σ)
    as [(_ & Hnone & _)|[_ [(Hnone & _)|[(r & _ & Hrow & Hset & _)|
        (r & _ & Hrow & _ & _ & [(_ & Hrows)|(Hlogged & _)])]]]]; cbv zeta in *.
  - congruence.
  - congruence.
  - unfold Mem.default_affiliate in Hunset. rewrite Hrow in Hunset.
    cbn [from_option] in Hunset. congruence.
  - rewrite (influencer_row_updated _ _ _ _ (default_update_id a) Hrows), Hrow.
    cbn [fmap option_fmap option_map].
    rewrite default_update_affiliate, dict_truthy_nonempty; [done|].
    intros Hemp. apply (f_equal (λ m : row, m !! "updated_at")) in Hemp.
    rewrite lookup_empty in Hemp.
    by rewrite (lookup_union_Some_l _ _ _ (VStr "now()")) in Hemp.
  - congruence.
Qed.

Lemma primary_after_first_link_witness :
  result (get_primary_affiliate_id "i1")
    (after (add_affiliate_link "i1" "amazon" "A") (world_alice []))
  = Return (VStr "A").
Proof.
  apply primary_after_first_link.
  - reflexivity.
  - apply returned_some_succeeded. vm_compute; reflexivity.
  - vm_compute; reflexivity.
  - reflexivity.
Defined.

(** ** Assets under several names and of several influencers *)

(** What an accepted [store_original_asset] does to a healthy store,
    whether or not it holds the influencer. *)
Lemma store_original_asset_mem_state (σ : world Mem.db) (i f : string) (c : bytes) :
  Mem.faults (ext σ) = [] →
  Mem.objects (ext σ) !! (bucket_name, asset_path i f) = None →
  let d' := ext (after (store_original_asset i c f) σ) in
  Mem.rows_influencers d'
  = Mem.apply_update (asset_update (asset_path i f)) "id" i
      <$> Mem.rows_influencers (ext σ) ∧
  Mem.objects d' = <[(bucket_name, asset_path i f) := c]> (Mem.objects (ext σ)) ∧
  Mem.faults d' = [].
Proof.
  intros Hf Hfree d'. subst d'.
  unfold after. rewrite store_original_asset_run. cbv zeta.
  fold (asset_update (asset_path i f)).
  rewrite (mem_upload_healthy _ _ _ _ Hf Hfree).
  set (d1 := Mem.set_objects _ (Mem.tick (ext σ))).
  assert (Hf1 : Mem.faults d1 = []) by (subst d1; by apply mem_faults_tick).
  rewrite (mem_update_healthy influencers (asset_update (asset_path i f)) "id" i
             d1 Hf1 (path_update_ok _ _ _)).
  cbn [fst snd ext log trace dicts].
  split; [|split].
  - change (Mem.rows_influencers ?x) with (Mem.rows_of influencers x).
    by rewrite mem_rows_set_same.
  - by rewrite mem_objects_set_rows.
  - rewrite mem_faults_set_rows. by apply mem_faults_tick.
Qed.

Lemma influencer_row_other (u : row) (i j : string) (d d' : Mem.db) :
  i ≠ j →
  u !! "id" = None →
  Mem.rows_influencers d' = Mem.apply_update u "id" j <$> Mem.rows_influencers d →
  Mem.influencer_row i d' = Mem.influencer_row i d.
Proof.
  intros Hij Hu Hrows. unfold Mem.influencer_row.
  by rewrite Hrows, filter_apply_update_other.
Qed.

(** What two stores that both returned their path leave behind, for one
    influencer or for two. *)
Lemma two_accepted_stores (σ : world Mem.db) (i j f g : string) (c c2 : bytes) :
  Mem.faults (ext σ) = [] →
  result (store_original_asset i c f) σ = Return (Some (asset_path i f)) →
  result (store_original_asset j c2 g) (after (store_original_asset i c f) σ)
  = Return (Some (asset_path j g)) →
  let σ1 := after (store_original_asset i c f) σ in
  let σ2 := after (store_original_asset j c2 g) σ1 in
  Mem.objects (ext σ) !! (bucket_name, asset_path i f) = None ∧
  Mem.objects (ext σ1) !! (bucket_name, asset_path j g) = None ∧
  Mem.faults (ext σ1) = [] ∧
  Mem.faults (ext σ2) = [] ∧
  Mem.objects (ext σ2) !! (bucket_name, asset_path i f) = Some c ∧
  Mem.objects (ext σ2) !! (bucket_name, asset_path j g) = Some c2.
Proof.
  intros Hf Hres1 Hres2 σ1 σ2.
  assert (Hfree1 := store_original_asset_accepted σ i f c _ Hf Hres1).
  destruct (store_original_asset_mem_state σ i f c Hf Hfree1) as (_ & Hobj1 & Hf1).
  fold σ1 in Hobj1, Hf1.
  assert (Hfree2 := store_original_asset_accepted σ1 j g c2 _ Hf1 Hres2).
  destruct (store_original_asset_mem_state σ1 j g c2 Hf1 Hfree2) as (_ & Hobj2 & Hf2).
  fold σ2 in Hobj2, Hf2.
  assert (Hpath : asset_path j g ≠ asset_path i f).
  { intros Heq. rewrite Heq, Hobj1, lookup_insert_eq in Hfree2. discriminate Hfree2. }
  split; [done|]. split; [done|]. split; [done|]. split; [done|]. split.
  - rewrite Hobj2, lookup_insert_ne by congruence.
    rewrite Hobj1. apply lookup_insert_eq.
  - rewrite Hobj2. apply lookup_insert_eq.
Qed.

(** X13. Against a healthy in-memory backend that holds the influencer:
    when a store under one file name and then a store under another
    both return their path, nothing was deleted.  The earlier object
    can still be downloaded from its path, the later one from its own,
    and [get_original_asset] returns the later one. *)
Theorem earlier_asset_stays_in_bucket (σ : world Mem.db) (i f g : string)
    (c c2 : bytes) (r : row) :
  Mem.faults (ext σ) = [] →
  Mem.influencer_row i (ext σ) = Some r →
  result (store_original_asset i c f) σ = Return (Some (asset_path i f)) →
  result (store_original_asset i c2 g) (after (store_original_asset i c f) σ)
  = Return (Some (asset_path i g)) →
  let σ1 := after (store_original_asset i c f) σ in
  let σ2 := after (store_original_asset i c2 g) σ1 in
  result (get_original_asset i) σ2 = Return (Some c2) ∧
  (storage_download bucket_name (VStr (asset_path i f)) (ext σ2)).1 = Return c ∧
  (storage_download bucket_name (VStr (asset_path i g)) (ext σ2)).1 = Return c2.
Proof.
  intros Hf Hrow Hres1 Hres2 σ1 σ2.
  destruct (two_accepted_stores σ i i f g c c2 Hf Hres1 Hres2)
    as (Hfree1 & Hfree2 & Hf1 & Hf2 & Hold & Hnew).
  fold σ1 in Hfree2, Hf1, Hf2, Hold, Hnew. fold σ2 in Hf2, Hold, Hnew.
  destruct (store_original_asset_mem σ i f c r Hf Hfree1 Hrow)
    as (_ & _ & _ & _ & Hrow1 & _).
  fold σ1 in Hrow1.
  destruct (store_original_asset_mem σ1 i g c2 _ Hf1 Hfree2 Hrow1)
    as (_ & _ & _ & _ & Hrow2 & _).
  fold σ2 in Hrow2.
  split; [|split].
  - apply (get_original_asset_mem σ2 i (asset_path i g) c2 _ Hf2 Hrow2).
    + apply asset_update_path.
    + apply asset_path_nonempty.
    + exact Hnew.
  - by rewrite (mem_download_healthy _ _ c _ Hf2 Hold).
  - by rewrite (mem_download_healthy _ _ c2 _ Hf2 Hnew).
Qed.

Lemma earlier_asset_stays_in_bucket_witness :
  let σ1 := after (store_original_asset "i1" [x61] "a.png") (world_alice []) in
  let σ2 := after (store_original_asset "i1" [x62] "b.png") σ1 in
  (storage_download bucket_name (VStr (asset_path "i1" "a.png")) (ext σ2)).1
  = Return [x61].
Proof.
  refine (proj1 (proj2
            (earlier_asset_stays_in_bucket (world_alice []) "i1" "a.png" "b.png"
               [x61] [x62] alice_row _ _ _ _))).
  - reflexivity.
  - reflexivity.
  - reflexivity.
  - reflexivity.
Defined.

(** X14. Against a healthy in-memory backend that holds two different
    influencers: when a store for one and then a store for the other
    both return their path, each has their own asset:
    [get_original_asset] returns to each the bytes stored for them. *)
Theorem assets_of_two_influencers (σ : world Mem.db) (i j f g : string)
    (c c2 : bytes) (ri rj : row) :
  Mem.faults (ext σ) = [] →
  Mem.influencer_row i (ext σ) = Some ri →
  Mem.influencer_row j (ext σ) = Some rj →
  i ≠ j →
  result (store_original_asset i c f) σ = Return (Some (asset_path i f)) →
  result (store_original_asset j c2 g) (after (store_original_asset i c f) σ)
  = Return (Some (asset_path j g)) →
  let σ1 := after (store_original_asset i c f) σ in
  let σ2 := after (store_original_asset j c2 g) σ1 in
  result (get_original_asset i) σ2 = Return (Some c) ∧
  result (get_original_asset j) σ2 = Return (Some c2).
Proof.
  intros Hf Hi Hj Hij Hres1 Hres2 σ1 σ2.
  destruct (two_accepted_stores σ i j f g c c2 Hf Hres1 Hres2)
    as (Hfree1 & Hfree2 & Hf1 & Hf2 & Hold & Hnew).
  fold σ1 in Hfree2, Hf1, Hf2, Hold, Hnew. fold σ2 in Hf2, Hold, Hnew.
  destruct (store_original_asset_mem σ i f c ri Hf Hfree1 Hi)
    as (_ & _ & _ & _ & Hi1 & _).
  destruct (store_original_asset_mem_state σ i f c Hf Hfree1) as (Hrows1 & _ & _).
  fold σ1 in Hi1, Hrows1.
  assert (Hj1 : Mem.influencer_row j (ext σ1) = Some rj).
  { rewrite <- Hj.
    by apply (influencer_row_other (asset_update (asset_path i f)) j i). }
  destruct (store_original_asset_mem σ1 j g c2 rj Hf1 Hfree2 Hj1)
    as (_ & _ & _ & _ & Hj2 & _).
  destruct (store_original_asset_mem_state σ1 j g c2 Hf1 Hfree2) as (Hrows2 & _ & _).
  fold σ2 in Hj2, Hrows2.
  assert (Hi2 : Mem.influencer_row i (ext σ2)
                = Some (asset_update (asset_path i f) ∪ ri)).
  { rewrite <- Hi1.
    by apply (influencer_row_other (asset_update (asset_path j g)) i j). }
  split.
  - apply (get_original_asset_mem σ2 i (asset_path i f) c _ Hf2 Hi2).
    + apply asset_update_path.
    + apply asset_path_nonempty.
    + exact Hold.
  - apply (get_original_asset_mem σ2 j (asset_path j g) c2 _ Hf2 Hj2).
    + apply asset_update_path.
    + apply asset_path_nonempty.
    + exact Hnew.
Qed.

Lemma assets_of_two_influencers_witness :
  let σ1 := after (store_original_asset "i1" [x61] "avatar.png") world_pair in
  let σ2 := after (store_original_asset "i2" [x62] "avatar.png") σ1 in
  result (get_original_asset "i1") σ2 = Return (Some [x61]) ∧
  result (get_original_asset "i2") σ2 = Return (Some [x62]).
Proof.
  apply (assets_of_two_influencers world_pair "i1" "i2" "avatar.png" "avatar.png"
           [x61] [x62] alice_row bob_row).
  - reflexivity.
  - reflexivity.
  - reflexivity.
  - discriminate.
  - reflexivity.
  - reflexivity.
Defined.

(** ** Start-up *)

Section startup_proofs.
Context {S : Type} `{!Admin S}.

Lemma initialize_tables_blocks :
  initialize_tables
  = (ensure_table influencers;; ensure_table affiliate_links;;
     ensure_table chat_interactions).
Proof. reflexivity. Qed.

(** One block: the probe, then the [CREATE TABLE] if the probe raised,
    then one line if that raised too. *)
Lemma ensure_table_run (t : table) (σ : world (list admin_request * S)) :
  ensure_table t σ =
  let '(o1, s1) := probe t (ext σ).2 in
  match o1 with
  | Return _ =>
      (Return (),
       World (dicts σ) (log σ) (trace σ)
             (((ext σ).1 ++ table_calls t false)%list, s1))
  | Raise _ =>
      let '(o2, s2) := rpc_execute_sql (create_table_sql t) s1 in
      (Return (),
       World (dicts σ)
             (match o2 with
              | Return _ => log σ
              | Raise e => (log σ ++ [(creation_failed t ++ exn_str e)%string])%list
              end)
             (trace σ)
             (((ext σ).1 ++ table_calls t true)%list, s2))
  end.
Proof.
  unfold ensure_table, try_except, probe_table, execute_sql, logger_error, table_calls.
  destruct (probe t (ext σ).2) as [[[]|e1] s1]; cbn [ext log trace dicts fst snd]; [done|].
  destruct (rpc_execute_sql (create_table_sql t) s1) as [[[]|e2] s2];
    cbn [ext log trace dicts fst snd]; by rewrite <- (assoc_L app).
Qed.

Lemma ensure_table_spec (t : table) (σ : world (list admin_request * S)) :
  ∃ (created : bool) (lines : list string) (s' : S),
    ensure_table t σ
    = (Return (),
       World (dicts σ) (log σ ++ lines)%list (trace σ)
             (((ext σ).1 ++ table_calls t created)%list, s')) ∧
    (length lines ≤ Nat.b2n created)%nat ∧
    (created = true ↔ ∃ e s1, probe t (ext σ).2 = (Raise e, s1)).
Proof.
  rewrite ensure_table_run.
  destruct (probe t (ext σ).2) as [[[]|e1] s1].
  - exists false, [], s1. rewrite app_nil_r. split; [done|]. split; [done|].
    split; [done|]. by intros (e & s2 & ?).
  - destruct (rpc_execute_sql (create_table_sql t) s1) as [[[]|e2] s2].
    + exists true, [], s2. rewrite app_nil_r. split; [done|]. split; [cbn; lia|].
      split; [eauto|done].
    + exists true, [creation_failed t ++ exn_str e2], s2.
      split; [done|]. split; [done|]. split; [eauto|done].
Qed.

Lemma initialize_tables_spec (σ : world (list admin_request * S)) :
  ∃ (c1 c2 c3 : bool) (l1 l2 l3 : list string) (s' : S),
    initialize_tables σ
    = (Return (),
       World (dicts σ) (log σ ++ l1 ++ l2 ++ l3)%list (trace σ)
             (((ext σ).1 ++ table_calls influencers c1
                ++ table_calls affiliate_links c2
                ++ table_calls chat_interactions c3)%list, s')) ∧
    (length l1 ≤ Nat.b2n c1)%nat ∧
    (length l2 ≤ Nat.b2n c2)%nat ∧
    (length l3 ≤ Nat.b2n c3)%nat ∧
    (c1 = true ↔ ∃ e s1, probe influencers (ext σ).2 = (Raise e, s1)).
Proof.
  rewrite initialize_tables_blocks.
  unfold mbind, M_bind, bind.
  destruct (ensure_table_spec influencers σ) as (c1 & l1 & s1 & -> & Hl1 & Hc1).
  set (σ1 := World _ _ _ _).
  destruct (ensure_table_spec affiliate_links σ1) as (c2 & l2 & s2 & -> & Hl2 & _).
  set (σ2 := World _ _ _ _).
  destruct (ensure_table_spec chat_interactions σ2) as (c3 & l3 & s3 & -> & Hl3 & _).
  exists c1, c2, c3, l1, l2, l3, s3.
  subst σ2 σ1. cbn [ext log trace dicts fst snd].
  by rewrite <- !(assoc_L app).
Qed.

(** X15. Whatever the service answers, [initialize_tables] returns
    without raising and leaves the caller's dictionaries alone.  It
    probes [influencers], [affiliate_links] and [chat_interactions], each
    once and in this order, and an earlier failure stops none of the
    later probes; the only other call it makes is a table's own
    [CREATE TABLE], right after that table's probe; it logs at most one
    line per [CREATE TABLE] sent; and the first [CREATE TABLE] is sent
    exactly when the first probe raised. *)
Theorem initialize_tables_footprint (σ : world (list admin_request * S)) :
  result initialize_tables σ = Return () ∧
  dicts (after initialize_tables σ) = dicts σ ∧
  ∃ c1 c2 c3 : bool,
    calls initialize_tables σ
    = (table_calls influencers c1 ++ table_calls affiliate_links c2
       ++ table_calls chat_interactions c3)%list ∧
    (length (logged initialize_tables σ)
     ≤ Nat.b2n c1 + Nat.b2n c2 + Nat.b2n c3)%nat ∧
    (c1 = true ↔ ∃ e s1, probe influencers (ext σ).2 = (Raise e, s1)).
Proof.
  destruct (initialize_tables_spec σ)
    as (c1 & c2 & c3 & l1 & l2 & l3 & s' & Hrun & Hl1 & Hl2 & Hl3 & Hc1).
  unfold result, after, calls, logged, after. rewrite Hrun.
  cbn [ext log trace dicts fst snd].
  split; [done|]. split; [done|].
  exists c1, c2, c3. rewrite !drop_app_length, !length_app.
  split; [done|]. split; [lia|done].
Qed.
End startup_proofs.

Lemma created_by_create_table_sql (t : table) :
  Schema.created_by (create_table_sql t) = Some t.
Proof. destruct t; vm_compute; reflexivity. Qed.

Lemma schema_add_has (t : table) (d : Schema.db) :
  Schema.has t d = true → Schema.add t d = d.
Proof. destruct t, d as [b1 b2 b3]; cbn; by intros ->. Qed.

(** One block against the schema: the table exists afterwards, provided
    the table it references does. *)
Lemma schema_ensure_table (t : table) (σ : world (list admin_request * Schema.db)) :
  (Mem.references_influencer t = true → Schema.has influencers (ext σ).2 = true) →
  ensure_table t σ
  = (Return (),
     World (dicts σ) (log σ) (trace σ)
           (((ext σ).1 ++ table_calls t (negb (Schema.has t (ext σ).2)))%list,
            Schema.add t (ext σ).2)).
Proof.
  intros Hparent. rewrite ensure_table_run.
  change (probe t (ext σ).2) with (Schema.select_limit_1 t (ext σ).2).
  unfold Schema.select_limit_1.
  destruct (Schema.has t (ext σ).2) eqn:Hhas.
  - by rewrite (schema_add_has _ _ Hhas).
  - change (rpc_execute_sql (create_table_sql t) (ext σ).2)
      with (Schema.run_sql (create_table_sql t) (ext σ).2).
    unfold Schema.run_sql. rewrite created_by_create_table_sql.
    unfold Schema.create_table. rewrite Hhas.
    destruct (Mem.references_influencer t) eqn:Href; [|done].
    by rewrite (Hparent eq_refl).
Qed.

(** X16. Against a database that knows which tables exist, whichever of
    the three exist at the start: [initialize_tables] sends a
    [CREATE TABLE] for exactly the missing ones, logs nothing, and all
    three exist afterwards; run again, it sends the three probes only
    and changes nothing. *)
Theorem initialize_tables_completes_schema
    (σ : world (list admin_request * Schema.db)) :
  let d := (ext σ).2 in
  let σ' := after initialize_tables σ in
  (∀ t, Schema.has t (ext σ').2 = true) ∧
  logged initialize_tables σ = [] ∧
  calls initialize_tables σ
  = (table_calls influencers (negb (Schema.has influencers d))
     ++ table_calls affiliate_links (negb (Schema.has affiliate_links d))
     ++ table_calls chat_interactions (negb (Schema.has chat_interactions d)))%list ∧
  calls initialize_tables σ'
  = [Probe influencers; Probe affiliate_links; Probe chat_interactions] ∧
  (ext (after initialize_tables σ')).2 = (ext σ').2.
Proof.
  assert (Hrun : ∀ τ : world (list admin_request * Schema.db),
    initialize_tables τ
    = (Return (),
       World (dicts τ) (log τ) (trace τ)
         (((ext τ).1
           ++ table_calls influencers (negb (Schema.has influencers (ext τ).2))
           ++ table_calls affiliate_links (negb (Schema.has affiliate_links (ext τ).2))
           ++ table_calls chat_interactions
                (negb (Schema.has chat_interactions (ext τ).2)))%list,
          Schema.Db true true true))).
  { intros τ. rewrite initialize_tables_blocks. unfold mbind, M_bind, bind.
    rewrite schema_ensure_table by done.
    rewrite schema_ensure_table by (by destruct τ as [? ? ? [? []]]).
    rewrite schema_ensure_table by (by destruct τ as [? ? ? [? []]]).
    destruct τ as [ds lg tr [j [b1 b2 b3]]]. cbn [ext log trace dicts fst snd].
    by rewrite <- !(assoc_L app). }
  intros d σ'. subst d σ'.
  unfold after, logged, calls, after. rewrite !Hrun.
  cbn [ext log trace dicts fst snd].
  rewrite !drop_app_length, drop_all.
  split; [by intros []|]. done.
Qed.

(** On an empty database every table is created, in the order the
    foreign keys need. *)
Example initialize_tables_fresh :
  calls initialize_tables world_fresh
  = [Probe influencers; ExecuteSql create_influencers_sql;
     Probe affiliate_links; ExecuteSql create_affiliate_links_sql;
     Probe chat_interactions; ExecuteSql create_chat_interactions_sql]
  ∧ logged initialize_tables world_fresh = [].
Proof. split; reflexivity. Qed.

(** ** A required field that is [None] *)

Lemma insert_ok_not_null (t : table) (r : row) (d : Mem.db) (c : string) :
  Mem.insert_ok t r d = true →
  c ∈ Mem.not_null t →
  dict_get r c ≠ VNone.
Proof.
  unfold Mem.insert_ok. intros Hok Hc.
  apply andb_prop in Hok as [Hok _]. apply andb_prop in Hok as [Hok _].
  apply andb_prop in Hok as [_ Hnn].
  unfold Mem.not_null_ok in Hnn. rewrite forallb_forall in Hnn.
  specialize (Hnn c). apply bool_decide_eq_true in Hnn; [done|].
  by apply list_elem_of_In.
Qed.

(** X17. [create_influencer] tests that the four required keys are in
    the map, not that they hold a value.  With all four present and one
    of them [None], the insert is sent and the caller's map gets its
    [chat_page_url]; the in-memory backend refuses the row ([NOT NULL]),
    so the call returns [None] and nothing stored changes. *)
Theorem create_influencer_null_field (σ : world Mem.db) (l : loc) (d : row)
    (f : string) :
  dicts σ !! l = Some d →
  (∀ k, k ∈ required_fields → is_Some (d !! k)) →
  f ∈ required_fields →
  d !! f = Some VNone →
  result (create_influencer l) σ = Return None ∧
  sent (create_influencer l) σ
  = [Table (Insert influencers (with_chat_page_url d))] ∧
  Mem.stored (ext (after (create_influencer l) σ)) = Mem.stored (ext σ) ∧
  dicts (after (create_influencer l) σ) !! l = Some (with_chat_page_url d).
Proof.
  intros Hl Hall Hf Hnone.
  assert (Hd : dicts σ !!! l = d) by (by rewrite lookup_total_alt, Hl).
  assert (Hne : f ≠ "chat_page_url").
  { intros ->. repeat (apply elem_of_cons in Hf as [Hf|Hf]; [discriminate|]).
    by apply elem_of_nil in Hf. }
  apply has_required_fields_spec in Hall.
  assert (Hrun := create_influencer_run l σ). cbv zeta in Hrun.
  rewrite Hd, Hall in Hrun.
  destruct (table_execute _ _) as [o d1] eqn:E.
  apply mem_insert_inv in E as [(-> & _ & Hok & Hd1)|((e & ->) & Hst & _)].
  - exfalso. apply (insert_ok_not_null _ _ _ f) in Hok.
    + apply Hok. unfold dict_get.
      by rewrite (created_row_lookup d f VNone Hne Hnone).
    + exact Hf.
  - unfold result, after.
    split; [by rewrite Hrun|]. split.
    { apply sent_app. unfold after. by rewrite Hrun. }
    split; [by rewrite Hrun|].
    rewrite Hrun. cbn [snd dicts]. apply lookup_insert_eq.
Qed.

Lemma create_influencer_null_field_witness :
  result (create_influencer 0) world_nameless = Return None ∧
  dicts (after (create_influencer 0) world_nameless) !! 0
  = Some (with_chat_page_url nameless).
Proof.
  destruct (create_influencer_null_field world_nameless 0 nameless "username")
    as (Hres & _ & _ & Hdict).
  - reflexivity.
  - apply has_required_fields_spec. reflexivity.
  - apply elem_of_cons. right. apply elem_of_cons. by left.
  - reflexivity.
  - split; [exact Hres|exact Hdict].
Defined.

(** ** Asset paths that coincide *)

Lemma string_app_assoc (a b c : string) : (a ++ b) ++ c = a ++ b ++ c.
Proof.
  induction a as [|x a IH]; [done|].
  change (String x ((a ++ b) ++ c) = String x (a ++ b ++ c)). by rewrite IH.
Qed.

Lemma string_app_ne (i x : string) : x ≠ "" → i ≠ i ++ x.
Proof.
  intros Hx. induction i as [|a i IH].
  - change ("" ++ x) with x. congruence.
  - change (String a i ++ x) with (String a (i ++ x)). intros [= Heq]. by apply IH.
Qed.

(** The path is the plain concatenation: a slash in the file name and a
    slash in the id cannot be told apart. *)
Lemma asset_path_slash (i f g : string) :
  asset_path (i ++ "/" ++ f) g = asset_path i (f ++ "/" ++ g).
Proof.
  unfold asset_path. by rewrite !string_app_assoc.
Qed.

(** X18. The asset path is built from the id and the file name without
    any escaping.  Against a healthy in-memory backend that holds an
    influencer [i] and one whose id is [i/f]: once [i] has stored an
    asset named [f/g], a store of an asset named [g] for [i/f] uploads
    to that same path and is refused: it returns [None], nothing stored
    changes, and [get_original_asset i] still returns the bytes of
    [i]. *)
Theorem asset_paths_coincide (σ : world Mem.db) (i f g : string)
    (c c2 : bytes) (ri rj : row) :
  Mem.faults (ext σ) = [] →
  Mem.influencer_row i (ext σ) = Some ri →
  Mem.influencer_row (i ++ "/" ++ f) (ext σ) = Some rj →
  result (store_original_asset i c (f ++ "/" ++ g)) σ
  = Return (Some (asset_path i (f ++ "/" ++ g))) →
  let σ1 := after (store_original_asset i c (f ++ "/" ++ g)) σ in
  let other := store_original_asset (i ++ "/" ++ f) c2 g in
  let σ2 := after other σ1 in
  sent other σ1 = [Upload bucket_name (asset_path i (f ++ "/" ++ g)) c2] ∧
  result other σ1 = Return None ∧
  Mem.stored (ext σ2) = Mem.stored (ext σ1) ∧
  result (get_original_asset i) σ2 = Return (Some c).
Proof.
  intros Hf Hi Hj Hres σ1 other σ2.
  set (j := i ++ "/" ++ f) in *.
  set (h := f ++ "/" ++ g) in *.
  assert (Hpath : asset_path j g = asset_path i h) by apply asset_path_slash.
  assert (Hfree := store_original_asset_accepted σ i h c _ Hf Hres).
  destruct (store_original_asset_mem σ i h c ri Hf Hfree Hi)
    as (_ & _ & _ & Hf1 & Hi1 & Hobj1).
  fold σ1 in Hf1, Hi1, Hobj1.
  assert (Hheld : Mem.objects (ext σ1) !! (bucket_name, asset_path j g) = Some c).
  { rewrite Hpath, Hobj1. apply lookup_insert_eq. }
  destruct (store_original_asset_refused σ1 j g c2 c Hf1 Hheld)
    as (Hres2 & Hsent2 & _ & Hext2).
  fold other in Hres2, Hsent2, Hext2. fold σ2 in Hext2.
  split; [by rewrite <- Hpath|]. split; [done|]. split; [by rewrite Hext2|].
  apply (get_original_asset_mem σ2 i (asset_path i h) c
           (asset_update (asset_path i h) ∪ ri)).
  - rewrite Hext2. by apply mem_faults_tick.
  - by rewrite Hext2.
  - apply asset_update_path.
  - apply asset_path_nonempty.
  - rewrite Hext2, <- Hpath. exact Hheld.
Qed.

Lemma asset_paths_coincide_witness :
  let σ1 := after (store_original_asset "i1" [x61] "x/avatar.png") world_nested in
  let other := store_original_asset "i1/x" [x62] "avatar.png" in
  result other σ1 = Return None ∧
  result (get_original_asset "i1") (after other σ1) = Return (Some [x61]).
Proof.
  destruct (asset_paths_coincide world_nested "i1" "x" "avatar.png"
              [x61] [x62] alice_row nested_row)
    as (_ & Hnone & _ & Hget).
  - reflexivity.
  - reflexivity.
  - reflexivity.
  - reflexivity.
  - split; [exact Hnone|exact Hget].
Defined.
